(** * J-Archive: archive lookup for the page shown in a tab

    A shallow embedding of the background service worker (URL clean-up,
    lookup client, result extraction, replies to the tab) and of the
    notification UI of the content script, with the properties of the
    design document stated over it.

    JavaScript strings are modelled as [string]: the sequence of bytes of
    the UTF-8 encoding of the text.  Every pattern, marker and delimiter
    the program looks for is ASCII, and an ASCII byte never occurs inside
    the encoding of another character, so searching and cutting at these
    patterns gives the same text in UTF-8 bytes as in UTF-16 code units. *)

From Stdlib Require Import Strings.String Strings.Ascii.
From Stdlib Require Import Lists.List Bool.Bool Arith.Arith ZArith.ZArith Lia.
From Stdlib Require Import Numbers.DecimalString Numbers.DecimalN Numbers.DecimalPos.
Import ListNotations.

#[local] Open Scope string_scope.
#[local] Open Scope bool_scope.

(** ** Strings of the host language *)

Module JsString.

(** [s.startsWith(p)] *)
Fixpoint startsWith (p s : string) : bool :=
  match p, s with
  | EmptyString, _ => true
  | String _ _, EmptyString => false
  | String a p', String b s' => Ascii.eqb a b && startsWith p' s'
  end.

(** the suffix of [s] from position [n] on; the whole of [s] when [n = 0],
    the empty string when [n] is past the end *)
Fixpoint drop (n : nat) (s : string) : string :=
  match n, s with
  | O, _ => s
  | S _, EmptyString => EmptyString
  | S n', String _ s' => drop n' s'
  end.

(** position of the first occurrence of [needle] in [s] *)
Fixpoint find (needle s : string) : option nat :=
  if startsWith needle s then Some O
  else match s with
       | EmptyString => None
       | String _ s' => option_map S (find needle s')
       end.

(** [s.indexOf(needle)]: the position of the first occurrence, or [-1] *)
Definition indexOf (s needle : string) : Z :=
  match find needle s with
  | Some i => Z.of_nat i
  | None => (-1)%Z
  end.

(** [s.slice(start)]: a negative [start] counts from the end of [s], and
    the start position is clamped to [0 .. s.length] *)
Definition slice (s : string) (start : Z) : string :=
  let len := Z.of_nat (String.length s) in
  let from := if (start <? 0)%Z then Z.max (len + start) 0 else Z.min start len in
  drop (Z.to_nat from) s.

(** the longest prefix of [s] whose characters all satisfy [p] *)
Fixpoint takeWhile (p : ascii -> bool) (s : string) : string :=
  match s with
  | EmptyString => EmptyString
  | String c s' => if p c then String c (takeWhile p s') else EmptyString
  end.

Fixpoint dropWhile (p : ascii -> bool) (s : string) : string :=
  match s with
  | EmptyString => EmptyString
  | String c s' => if p c then dropWhile p s' else s
  end.

Fixpoint all (p : ascii -> bool) (s : string) : bool :=
  match s with
  | EmptyString => true
  | String c s' => p c && all p s'
  end.

Fixpoint any (p : ascii -> bool) (s : string) : bool :=
  match s with
  | EmptyString => false
  | String c s' => p c || any p s'
  end.

Fixpoint mapS (f : ascii -> ascii) (s : string) : string :=
  match s with
  | EmptyString => EmptyString
  | String c s' => String (f c) (mapS f s')
  end.

(** each character replaced by a string *)
Fixpoint flatMapS (f : ascii -> string) (s : string) : string :=
  match s with
  | EmptyString => EmptyString
  | String c s' => f c ++ flatMapS f s'
  end.

(** [s] is empty or begins with a character that fails [p]. *)
Definition stops (p : ascii -> bool) (s : string) : Prop :=
  match s with
  | EmptyString => True
  | String c _ => p c = false
  end.

Definition code (c : ascii) : nat := nat_of_ascii c.

(** [c] is one of the characters of [cs] *)
Definition oneOf (cs : string) (c : ascii) : bool := any (Ascii.eqb c) cs.

Definition inRange (lo hi : nat) (c : ascii) : bool :=
  (lo <=? code c)%nat && (code c <=? hi)%nat.

Definition isDigit (c : ascii) : bool := inRange 48 57 c.
Definition isUpper (c : ascii) : bool := inRange 65 90 c.
Definition isLower (c : ascii) : bool := inRange 97 122 c.
Definition isAlpha (c : ascii) : bool := isUpper c || isLower c.
(** the character class [[a-zA-Z0-9]] *)
Definition isAlnum (c : ascii) : bool := isLower c || isUpper c || isDigit c.

Definition toLower (c : ascii) : ascii :=
  if isUpper c then ascii_of_nat (code c + 32) else c.
Definition toLowerCase (s : string) : string := mapS toLower s.

(** [xs.includes(x)] on an array of strings *)
Definition includes (xs : list string) (x : string) : bool :=
  existsb (String.eqb x) xs.

End JsString.
Import JsString.

(** ** The result extractor (background worker, [parseArchiveResults]) *)

Module Extractor.

Definition MARKER : string := "TEXT-BLOCK".
Definition LINK_PREFIX : string := "https://archive.ph/".

(** The regular expression [/https:\/\/archive\.ph\/[a-zA-Z0-9]{5,}/] tried
    at the first position of [s]: the literal, then a greedy run of at
    least five characters of the class.  Nothing follows the quantifier in
    the pattern, so the greedy run is never given back. *)
Definition exec_at (s : string) : option string :=
  if startsWith LINK_PREFIX s then
    let id := takeWhile isAlnum (drop (String.length LINK_PREFIX) s) in
    if (5 <=? String.length id)%nat then Some (LINK_PREFIX ++ id) else None
  else None.

(** All matches of the expression with the [g] flag, left to right: after
    a match the search resumes at the end of it ([skip] counts the
    characters of the last match still to pass over). *)
Fixpoint matchAll_from (skip : nat) (s : string) : list string :=
  match s with
  | EmptyString => []
  | String _ s' =>
      match skip with
      | S k => matchAll_from k s'
      | O =>
          match exec_at s with
          | Some m => m :: matchAll_from (String.length m - 1) s'
          | None => matchAll_from 0 s'
          end
      end
  end.

(** [s.match(/.../g)]: the array of all matches, or [null] when there is
    none *)
Definition str_match (s : string) : option (list string) :=
  match matchAll_from 0 s with
  | [] => None
  | ms => Some ms
  end.

(** [parseArchiveResults(html, originalUrl)]; [None] is [null].  Nothing in
    the body can throw on a string, so its [catch] branch (which also
    returns [null]) is never taken. *)
Definition parseArchiveResults (html originalUrl : string) : option string :=
  let html := slice html (indexOf html MARKER) in
  match str_match html with
  | Some (m :: _) => Some m
  | _ => None
  end.

(** The first match of the global search. *)
Definition first_match (s : string) : option string := hd_error (matchAll_from 0 s).

(** A link as the pattern describes it: the lookup host followed by an
    identifier of at least five alphanumeric characters. *)
Definition is_archive_link (m : string) : Prop :=
  exists id, m = LINK_PREFIX ++ id /\ all isAlnum id = true /\ 5 <= String.length id.

(** A link starts at the first position of [s]. *)
Definition starts_with_link (s : string) : Prop :=
  exists m r, s = m ++ r /\ is_archive_link m.

(** [s] does not go on with a character of the identifier class. *)
Definition token_ends (s : string) : Prop :=
  match s with
  | EmptyString => True
  | String c _ => isAlnum c = false
  end.

(** What the design document asks of the extractor on the text that follows
    the marker: [m] is the first link of [text], i.e. [m] is a link with its
    identifier taken whole, and no link starts at an earlier position. *)
Definition first_link_of (text m : string) : Prop :=
  exists a b,
    text = a ++ m ++ b /\ is_archive_link m /\ token_ends b /\
    forall k, k < String.length a -> ~ starts_with_link (drop k text).

(** No link starts anywhere in [text]. *)
Definition no_link_in (text : string) : Prop :=
  forall k, ~ starts_with_link (drop k text).

End Extractor.


(** ** Results of calls that may throw *)

Module Js.

Record Error := mkError { name : string; message : string }.

(** The outcome of evaluating an expression or awaiting a promise: a value,
    or a thrown error (a rejection). *)
Inductive Result (A : Type) : Type :=
| Returns (a : A)
| Throws (e : Error).
Arguments Returns {A} a.
Arguments Throws {A} e.

Definition bind {A B : Type} (r : Result A) (k : A -> Result B) : Result B :=
  match r with
  | Returns a => k a
  | Throws e => Throws e
  end.

(** [try { body } catch (error) { handler }] *)
Definition try_catch {A : Type} (body : Result A) (handler : Error -> Result A)
  : Result A :=
  match body with
  | Returns a => Returns a
  | Throws e => handler e
  end.

Definition TypeError (msg : string) : Error := mkError "TypeError" msg.

End Js.
Import Js.

Declare Scope js_scope.
Notation "x <- r ;; k" := (Js.bind r (fun x => k))
  (at level 61, r at next level, right associativity) : js_scope.
#[local] Open Scope js_scope.

(** ** The URL record of the platform ([new URL(input)])

    The constructor of the platform is not part of the program.  It is
    modelled after the basic URL parser of the URL Standard, run without a
    base URL and without a state override: the sections below follow its
    states.  The host parser of the standard (domain names with their
    internationalised forms, IPv4 and IPv6 literals) is taken as a
    parameter, [hostParser isOpaque input], which gives the serialized host
    or fails. *)

Module Url.

(** *** Percent-encoding *)

Definition hexDigit (n : nat) : ascii :=
  if (n <? 10)%nat then ascii_of_nat (48 + n) else ascii_of_nat (55 + n).

Definition percentEncodeByte (c : ascii) : string :=
  String "%" (String (hexDigit (code c / 16)) (String (hexDigit (code c mod 16)) "")).

Definition c0ControlSet (c : ascii) : bool :=
  (code c <? 32)%nat || (126 <? code c)%nat.
Definition fragmentSet (c : ascii) : bool :=
  c0ControlSet c || oneOf " <>`" c || (code c =? 34)%nat.
Definition querySet (c : ascii) : bool :=
  c0ControlSet c || oneOf " #<>" c || (code c =? 34)%nat.
Definition specialQuerySet (c : ascii) : bool :=
  querySet c || oneOf "'" c.
Definition pathSet (c : ascii) : bool :=
  querySet c || oneOf "?^`{}" c.
Definition userinfoSet (c : ascii) : bool :=
  pathSet c || oneOf "/:;=@[\]|" c.

Definition percentEncodeChar (set : ascii -> bool) (c : ascii) : string :=
  if set c then percentEncodeByte c else String c "".

Definition percentEncode (set : ascii -> bool) (s : string) : string :=
  flatMapS (percentEncodeChar set) s.

(** *** The record *)

Inductive Path : Type :=
| OpaquePath (p : string)
| ListPath (segments : list string).

Record URL : Type := mkURL {
  url_scheme : string;
  url_username : string;
  url_password : string;
  url_host : option string;    (* serialized; [None] is null *)
  url_port : option N;         (* [None] is null *)
  url_path : Path;
  url_query : option string;
  url_fragment : option string
}.

Definition isSpecial (scheme : string) : bool :=
  includes ["ftp"; "file"; "http"; "https"; "ws"; "wss"] scheme.

Definition defaultPort (scheme : string) : option N :=
  if scheme =? "ftp" then Some 21%N
  else if scheme =? "http" then Some 80%N
  else if scheme =? "https" then Some 443%N
  else if scheme =? "ws" then Some 80%N
  else if scheme =? "wss" then Some 443%N
  else None.

Definition decimal (n : N) : string := NilEmpty.string_of_uint (N.to_uint n).

(** *** Getters used by the program *)

Definition protocol (u : URL) : string := url_scheme u ++ ":".

Definition host (u : URL) : string :=
  match url_host u with
  | None => ""
  | Some h =>
      match url_port u with
      | None => h
      | Some p => h ++ ":" ++ decimal p
      end
  end.

Fixpoint serializeSegments (segments : list string) : string :=
  match segments with
  | [] => ""
  | seg :: rest => "/" ++ seg ++ serializeSegments rest
  end.

Definition pathname (u : URL) : string :=
  match url_path u with
  | OpaquePath p => p
  | ListPath segments => serializeSegments segments
  end.

(** *** The parser *)

Definition isC0OrSpace (c : ascii) : bool := (code c <=? 32)%nat.
Definition isTabOrNewline (c : ascii) : bool :=
  (code c =? 9)%nat || (code c =? 10)%nat || (code c =? 13)%nat.

Fixpoint filterS (p : ascii -> bool) (s : string) : string :=
  match s with
  | EmptyString => EmptyString
  | String c s' => if p c then String c (filterS p s') else filterS p s'
  end.

(** [s] without its trailing characters that satisfy [p] *)
Fixpoint dropWhileEnd (p : ascii -> bool) (s : string) : string :=
  match s with
  | EmptyString => EmptyString
  | String c s' =>
      match dropWhileEnd p s' with
      | EmptyString => if p c then EmptyString else String c EmptyString
      | t => String c t
      end
  end.

(** leading and trailing C0 controls and spaces are removed, then every
    tab and newline *)
Definition preprocess (input : string) : string :=
  filterS (fun c => negb (isTabOrNewline c))
          (dropWhileEnd isC0OrSpace (dropWhile isC0OrSpace input)).

Definition isSchemeChar (c : ascii) : bool := isAlnum c || oneOf "+-." c.

(** scheme start state and scheme state: the scheme, lower-cased, and what
    follows its colon.  Without a base URL the "no scheme" state fails. *)
Definition scheme_state (s : string) : option (string * string) :=
  match s with
  | EmptyString => None
  | String c _ =>
      if isAlpha c then
        match dropWhile isSchemeChar s with
        | String d rest =>
            if Ascii.eqb d ":" then Some (toLowerCase (takeWhile isSchemeChar s), rest)
            else None
        | EmptyString => None
        end
      else None
  end.

Definition isSingleDot (buffer : string) : bool :=
  includes ["."; "%2e"] (toLowerCase buffer).
Definition isDoubleDot (buffer : string) : bool :=
  includes [".."; ".%2e"; "%2e."; "%2e%2e"] (toLowerCase buffer).

Definition isWindowsDriveLetter (s : string) : bool :=
  match s with
  | String a (String b EmptyString) => isAlpha a && oneOf ":|" b
  | _ => false
  end.
Definition isNormalizedWindowsDriveLetter (s : string) : bool :=
  match s with
  | String a (String b EmptyString) => isAlpha a && Ascii.eqb b ":"
  | _ => false
  end.

(** shorten a URL's path *)
Definition shorten (scheme : string) (path : list string) : list string :=
  match path with
  | [p] => if (scheme =? "file") && isNormalizedWindowsDriveLetter p then path else []
  | _ => removelast path
  end.

(** path state, at the end of a segment: [slash] tells that the segment was
    ended by a path separator *)
Definition endSegment (scheme buffer : string) (slash : bool) (path : list string)
  : list string :=
  if isDoubleDot buffer then
    let path' := shorten scheme path in
    if slash then path' else path' ++ [""]
  else if isSingleDot buffer then
    if slash then path else path ++ [""]
  else
    match path, buffer with
    | [], String a (String b EmptyString) =>
        if (scheme =? "file") && isWindowsDriveLetter buffer
        then [String a (String ":" EmptyString)]
        else [buffer]
    | _, _ => path ++ [buffer]
    end.

Definition isPathSeparator (scheme : string) (c : ascii) : bool :=
  Ascii.eqb c "/" || (isSpecial scheme && Ascii.eqb c "\").

(** path state: the path, and the input left at [?], [#] or the end *)
Fixpoint path_state (scheme : string) (s buffer : string) (path : list string)
  : list string * string :=
  match s with
  | EmptyString => (endSegment scheme buffer false path, EmptyString)
  | String c s' =>
      if isPathSeparator scheme c then
        path_state scheme s' "" (endSegment scheme buffer true path)
      else if oneOf "?#" c then
        (endSegment scheme buffer false path, s)
      else
        path_state scheme s' (buffer ++ percentEncodeChar pathSet c) path
  end.

(** path start state *)
Definition path_start_state (scheme : string) (s : string) : list string * string :=
  match s with
  | EmptyString =>
      if isSpecial scheme then path_state scheme "" "" [] else ([], "")
  | String c s' =>
      if isSpecial scheme then
        if oneOf "/\" c then path_state scheme s' "" [] else path_state scheme s "" []
      else if oneOf "?#" c then ([], s)
      else if Ascii.eqb c "/" then path_state scheme s' "" []
      else path_state scheme s "" []
  end.

(** opaque path state *)
Fixpoint opaque_path_state (s : string) : string * string :=
  match s with
  | EmptyString => ("", "")
  | String c s' =>
      if oneOf "?#" c then ("", s)
      else
        let piece :=
          if Ascii.eqb c " " then
            match s' with
            | String d _ => if oneOf "?#" d then "%20" else " "
            | EmptyString => " "
            end
          else percentEncodeChar c0ControlSet c in
        let '(p, rest) := opaque_path_state s' in
        (piece ++ p, rest)
  end.

(** query state and fragment state, on the input left by the path states *)
Definition query_fragment_state (scheme : string) (s : string)
  : option string * option string :=
  let notHash := fun c => negb (Ascii.eqb c "#") in
  let fragmentOf := fun t =>
    match t with
    | String _ f => Some (percentEncode fragmentSet f)
    | EmptyString => None
    end in
  match s with
  | EmptyString => (None, None)
  | String c s' =>
      if Ascii.eqb c "?" then
        let set := if isSpecial scheme then specialQuerySet else querySet in
        (Some (percentEncode set (takeWhile notHash s')),
         fragmentOf (dropWhile notHash s'))
      else (None, fragmentOf s)
  end.

(** authority state: the credentials end at the last [@] *)
Fixpoint splitLastAt (s : string) : option string * string :=
  match s with
  | EmptyString => (None, "")
  | String c s' =>
      match splitLastAt s' with
      | (Some u, h) => (Some (String c u), h)
      | (None, h) => if Ascii.eqb c "@" then (Some "", h) else (None, String c h)
      end
  end.

Definition credentials (userinfo : option string) : string * string :=
  match userinfo with
  | None => ("", "")
  | Some ui =>
      let notColon := fun c => negb (Ascii.eqb c ":") in
      (percentEncode userinfoSet (takeWhile notColon ui),
       percentEncode userinfoSet (drop 1 (dropWhile notColon ui)))
  end.

(** host state: the host ends at the first colon outside brackets *)
Fixpoint host_state (insideBrackets : bool) (s : string) : string * option string :=
  match s with
  | EmptyString => ("", None)
  | String c s' =>
      if Ascii.eqb c ":" && negb insideBrackets then ("", Some s')
      else
        let inside :=
          if Ascii.eqb c "[" then true
          else if Ascii.eqb c "]" then false
          else insideBrackets in
        let '(h, p) := host_state inside s' in
        (String c h, p)
  end.

(** [port] is the default port of [scheme] *)
Definition isDefaultPort (scheme : string) (port : N) : bool :=
  match defaultPort scheme with
  | Some p => (p =? port)%N
  | None => false
  end.

(** port state, on the digits that follow the colon *)
Definition port_state (scheme : string) (buffer : string) : option (option N) :=
  match NilEmpty.uint_of_string buffer with
  | None => None
  | Some d =>
      if buffer =? "" then Some None
      else
        let port := N.of_uint d in
        if (65535 <? port)%N then None
        else if isDefaultPort scheme port then Some None
        else Some (Some port)
  end.

Section Parser.

Variable hostParser : bool -> string -> option string.

(** host state and port state on the text between the credentials and the
    end of the authority *)
Definition host_port_state (scheme : string) (hostport : string)
  : option (string * option N) :=
  let special := isSpecial scheme in
  match host_state false hostport with
  | (buffer, Some digits) =>
      if buffer =? "" then None
      else
        match hostParser (negb special) buffer with
        | None => None
        | Some h =>
            match port_state scheme digits with
            | None => None
            | Some port => Some (h, port)
            end
        end
  | (buffer, None) =>
      if special && (buffer =? "") then None
      else
        match hostParser (negb special) buffer with
        | None => None
        | Some h => Some (h, None)
        end
  end.

Definition isAuthorityEnd (scheme : string) (c : ascii) : bool :=
  oneOf "/?#" c || (isSpecial scheme && Ascii.eqb c "\").

(** authority state, host state, port state, path start state and what
    follows them *)
Definition authority_state (scheme : string) (s : string) : option URL :=
  let inAuthority := fun c => negb (isAuthorityEnd scheme c) in
  let authority := takeWhile inAuthority s in
  let rest := dropWhile inAuthority s in
  let '(userinfo, hostport) := splitLastAt authority in
  if match userinfo with Some _ => hostport =? "" | None => false end then None
  else
    match host_port_state scheme hostport with
    | None => None
    | Some (h, port) =>
        let '(username, password) := credentials userinfo in
        let '(path, rest') := path_start_state scheme rest in
        let '(query, fragment) := query_fragment_state scheme rest' in
        Some (mkURL scheme username password (Some h) port (ListPath path)
                    query fragment)
    end.

Definition fileURL (h : string) (parsed : list string * string) : URL :=
  let '(path, rest) := parsed in
  let '(query, fragment) := query_fragment_state "file" rest in
  mkURL "file" "" "" (Some h) None (ListPath path) query fragment.

(** file host state *)
Definition file_host_state (s : string) : option URL :=
  let inHost := fun c => negb (oneOf "/\?#" c) in
  let buffer := takeWhile inHost s in
  let rest := dropWhile inHost s in
  if isWindowsDriveLetter buffer then
    Some (fileURL "" (path_state "file" rest buffer []))
  else if buffer =? "" then
    Some (fileURL "" (path_start_state "file" rest))
  else
    match hostParser false buffer with
    | None => None
    | Some h =>
        Some (fileURL (if h =? "localhost" then "" else h)
                      (path_start_state "file" rest))
    end.

(** file state and file slash state *)
Definition file_state (s : string) : option URL :=
  match s with
  | String c1 s1 =>
      if oneOf "/\" c1 then
        match s1 with
        | String c2 s2 =>
            if oneOf "/\" c2 then file_host_state s2
            else Some (fileURL "" (path_state "file" s1 "" []))
        | EmptyString => Some (fileURL "" (path_state "file" s1 "" []))
        end
      else Some (fileURL "" (path_state "file" s "" []))
  | EmptyString => Some (fileURL "" (path_state "file" s "" []))
  end.

(** The basic URL parser on [input], with no base URL; [None] is failure. *)
Definition parse (input : string) : option URL :=
  match scheme_state (preprocess input) with
  | None => None
  | Some (scheme, rest) =>
      if scheme =? "file" then file_state rest
      else if isSpecial scheme then
        (* special authority slashes, special authority ignore slashes *)
        authority_state scheme (dropWhile (oneOf "/\") rest)
      else
        match rest with
        | String c1 s1 =>
            if Ascii.eqb c1 "/" then
              (* path or authority state *)
              match s1 with
              | String c2 s2 =>
                  if Ascii.eqb c2 "/" then authority_state scheme s2
                  else
                    let '(path, rest') := path_state scheme s1 "" [] in
                    let '(query, fragment) := query_fragment_state scheme rest' in
                    Some (mkURL scheme "" "" None None (ListPath path) query fragment)
              | EmptyString =>
                  let '(path, rest') := path_state scheme s1 "" [] in
                  let '(query, fragment) := query_fragment_state scheme rest' in
                  Some (mkURL scheme "" "" None None (ListPath path) query fragment)
              end
            else
              let '(p, rest') := opaque_path_state rest in
              let '(query, fragment) := query_fragment_state scheme rest' in
              Some (mkURL scheme "" "" None None (OpaquePath p) query fragment)
        | EmptyString =>
            Some (mkURL scheme "" "" None None (OpaquePath "") None None)
        end
  end.

(** [new URL(input)]: throws a [TypeError] when the parser fails *)
Definition new_URL (input : string) : Js.Result URL :=
  match parse input with
  | Some u => Returns u
  | None => Throws (TypeError "Invalid URL")
  end.

End Parser.

(** *** A host parser for plain names

    The host parser of the standard on the hosts it leaves as they are up
    to letter case: a domain of ASCII characters none of which is a
    forbidden domain code point is lower-cased, an opaque host without
    forbidden host code point is percent-encoded.  (Numeric hosts that the
    standard rewrites as IPv4 addresses, bracketed IPv6 literals,
    percent-encoded and internationalised domains are outside of it.) *)

Definition isForbiddenHostCodePoint (c : ascii) : bool :=
  (code c =? 0)%nat || isTabOrNewline c || oneOf " #/:<>?@[\]^|" c.

Definition isForbiddenDomainCodePoint (c : ascii) : bool :=
  isForbiddenHostCodePoint c || (code c <=? 31)%nat || oneOf "%" c
  || (127 <=? code c)%nat.

Definition plainHostParser (isOpaque : bool) (input : string) : option string :=
  if isOpaque then
    if any isForbiddenHostCodePoint input then None
    else Some (percentEncode c0ControlSet input)
  else if (input =? "") || any isForbiddenDomainCodePoint input then None
  else Some (toLowerCase input).

End Url.

(** ** What the URL Standard guarantees of the hosts it serializes *)

Module UrlSpec.
Import Url.

(** a printable ASCII character that is not a forbidden host code point *)
Definition hostChar (c : ascii) : bool :=
  negb (isForbiddenHostCodePoint c) && (32 <? code c)%nat && (code c <? 127)%nat.

Definition isHexDigit (c : ascii) : bool :=
  isDigit c || inRange 97 102 c || inRange 65 70 c.

(** the rest of a bracketed literal: hexadecimal digits and colons up to
    the closing bracket, which is the last character *)
Fixpoint bracketTail (s : string) : bool :=
  match s with
  | EmptyString => false
  | String c EmptyString => Ascii.eqb c "]"
  | String c s' => (isHexDigit c || Ascii.eqb c ":") && bracketTail s'
  end.

(** A serialized host is a name without forbidden host code point (a
    domain, a dotted IPv4 address, an opaque host) or a bracketed IPv6
    literal. *)
Definition hostShape (h : string) : bool :=
  all hostChar h
  || match h with
     | String c t => Ascii.eqb c "[" && bracketTail t
     | EmptyString => false
     end.

(** a character that the authority state keeps in the host and port *)
Definition authChar (c : ascii) : bool :=
  (32 <? code c)%nat && (code c <? 127)%nat && negb (oneOf "/?#\@" c).

(** a character of a path segment that the path state leaves as it is *)
Definition pathChar (c : ascii) : bool :=
  negb (pathSet c) && negb (oneOf "/\" c).

(** a segment that the path state appends unchanged *)
Definition cleanSegment (seg : string) : bool :=
  all pathChar seg && negb (isSingleDot seg) && negb (isDoubleDot seg).

(** a character above the C0 controls and the space *)
Definition visible (c : ascii) : bool := (32 <? code c)%nat.

(** a path of segments that the path state appends unchanged *)
Definition cleanPath (path : list string) : Prop :=
  Forall (fun seg => cleanSegment seg = true) path.

(** the schemes that [isValidUrl] accepts *)
Definition isHttp (scheme : string) : Prop := scheme = "http" \/ scheme = "https".

(** the [host] getter from the host and the port of the record *)
Definition hostText (h : string) (port : option N) : string :=
  match port with
  | None => h
  | Some p => h ++ ":" ++ decimal p
  end.


Definition portKept (scheme : string) (port : option N) : Prop :=
  match port with
  | None => True
  | Some p => (65535 <? p)%N = false /\ isDefaultPort scheme p = false
  end.

End UrlSpec.

(** ** Messages between the background worker and the content script *)

Module Messages.

Inductive MessageType : Type :=
| FIND_ARCHIVE
| ARCHIVE_FOUND
| ARCHIVE_ERROR
| OPEN_ARCHIVE
| INJECT_CONTENT_SCRIPT.

Definition MessageType_eqb (a b : MessageType) : bool :=
  match a, b with
  | FIND_ARCHIVE, FIND_ARCHIVE
  | ARCHIVE_FOUND, ARCHIVE_FOUND
  | ARCHIVE_ERROR, ARCHIVE_ERROR
  | OPEN_ARCHIVE, OPEN_ARCHIVE
  | INJECT_CONTENT_SCRIPT, INJECT_CONTENT_SCRIPT => true
  | _, _ => false
  end.

(** [payload?: any]: an object read through the properties [url],
    [archiveUrl] and [error]; a property that is not there reads as
    [undefined], here [None]. *)
Record Payload : Type := mkPayload {
  url : option string;
  archiveUrl : option string;
  error : option string
}.

Record ExtensionMessage : Type := mkMessage {
  type : MessageType;
  payload : Payload
}.

Definition includes_type (ts : list MessageType) (t : MessageType) : bool :=
  existsb (MessageType_eqb t) ts.

(** a string value in a condition: [undefined], [null] and the empty
    string are falsy *)
Definition truthy (v : option string) : bool :=
  match v with
  | Some (String _ _) => true
  | _ => false
  end.

(** [v || fallback] on strings *)
Definition orElse (v : option string) (fallback : string) : string :=
  match v with
  | Some (String c s) => String c s
  | _ => fallback
  end.

End Messages.
Import Messages.

(** ** The background service worker *)

Module JArchiveBackground.
Import Url.

Record ArchiveResponse : Type := mkArchiveResponse {
  success : bool;
  archiveUrl : option string;
  error : option string
}.

(** [encodeURIComponent]: every byte of the UTF-8 encoding is escaped, the
    unreserved characters apart.  (It throws only on a string that is not
    well-formed UTF-16, which has no UTF-8 encoding.) *)
Definition isUriUnreserved (c : ascii) : bool := isAlnum c || oneOf "-_.!~*'()" c.

Definition encodeURIComponent (s : string) : string :=
  percentEncode (fun c => negb (isUriUnreserved c)) s.

Definition buildArchiveSearchUrl (url : string) : string :=
  "https://archive.ph/" ++ encodeURIComponent url.

(** The network as the worker sees it. *)
Record Response : Type := mkResponse {
  status : nat;
  statusText : string;
  text : Js.Result string     (* [await response.text()] *)
}.

Definition ok (r : Response) : bool :=
  (200 <=? status r)%nat && (status r <=? 299)%nat.

(** [await fetch(url, { signal: AbortSignal.timeout(ms) })]: a response, or
    a rejection (network error, or the abort of the timeout signal). *)
Definition Fetch : Type := string -> N -> Js.Result Response.

Definition ARCHIVE_TIMEOUT : N := 10000.   (* 10 seconds timeout *)

Definition numberToString (n : nat) : string :=
  NilEmpty.string_of_uint (Nat.to_uint n).

Section Worker.

Variable hostParser : bool -> string -> option string.
Variable fetch : Fetch.

Definition isValidUrl (url : string) : Js.Result bool :=
  try_catch
    (urlObj <- new_URL hostParser url ;;
     Returns (includes ["http:"; "https:"] (protocol urlObj)))
    (fun _ => Returns false).

Definition cleanUrl (url : string) : Js.Result string :=
  try_catch
    (urlObj <- new_URL hostParser url ;;
     Returns (protocol urlObj ++ "//" ++ host urlObj ++ pathname urlObj))
    (fun _ => Returns url).

Definition searchArchiveResults (searchUrl originalUrl : string)
  : Js.Result ArchiveResponse :=
  try_catch
    (response <- fetch searchUrl ARCHIVE_TIMEOUT ;;
     _ <- (if negb (ok response)
           then Throws (mkError "Error"
                  ("HTTP " ++ numberToString (status response) ++ ": "
                           ++ statusText response))
           else Returns tt) ;;
     html <- text response ;;
     let archiveUrl := Extractor.parseArchiveResults html originalUrl in
     if truthy archiveUrl
     then Returns (mkArchiveResponse true archiveUrl None)
     else Returns (mkArchiveResponse false None (Some "No archive results found")))
    (fun error =>
       Returns (mkArchiveResponse false None
                  (Some ("Search failed: " ++ message error)))).

Definition findArchiveVersion (url : string) : Js.Result ArchiveResponse :=
  try_catch
    (cleanedUrl <- cleanUrl url ;;
     let archiveSearchUrl := buildArchiveSearchUrl cleanedUrl in
     searchArchiveResults archiveSearchUrl cleanedUrl)
    (fun error =>
       Returns (mkArchiveResponse false None
                  (Some ("Search failed: " ++ message error)))).

(** [sendMessageToTab(tabId, message)], as the list of the messages handed
    to [chrome.tabs.sendMessage], in order. *)
Definition Sent : Type := list (nat * ExtensionMessage).

Definition sendMessageToTab (tabId : nat) (message : ExtensionMessage) : Sent :=
  [(tabId, message)].

(** [tabId?: number]: [undefined] and [0] are falsy. *)
Definition handleFindArchive (url : string) (tabId : option nat) : Sent :=
  match tabId with
  | None | Some O => []
  | Some tabId =>
      match findArchiveVersion url with
      | Returns archiveResult =>
          if success archiveResult && truthy (archiveUrl archiveResult) then
            sendMessageToTab tabId
              (mkMessage ARCHIVE_FOUND
                 (mkPayload None (archiveUrl archiveResult) None))
          else
            sendMessageToTab tabId
              (mkMessage ARCHIVE_ERROR
                 (mkPayload None None
                    (Some (orElse (error archiveResult) "Archive not found"))))
      | Throws _ =>
          sendMessageToTab tabId
            (mkMessage ARCHIVE_ERROR
               (mkPayload None None (Some "Failed to search for archive")))
      end
  end.

Definition initiateArchiveSearch (url : string) (tabId : nat) : Sent :=
  (sendMessageToTab tabId
     (mkMessage INJECT_CONTENT_SCRIPT (mkPayload (Some url) None None))
   ++ handleFindArchive url (Some tabId))%list.

End Worker.

End JArchiveBackground.

(** ** The outcomes of a lookup *)

Module LookupSpec.
Import JArchiveBackground.

(** The outcomes of a lookup in the words of the design document, and the
    answer of [findArchiveVersion] that stands for each. *)
Inductive LookupOutcome : Type :=
| Found (archiveUrl : string)
| NotFound
| Failed (reason : string).

Definition represents (r : ArchiveResponse) (o : LookupOutcome) : Prop :=
  match o with
  | Found u => r = mkArchiveResponse true (Some u) None
  | NotFound => r = mkArchiveResponse false None (Some "No archive results found")
  | Failed reason => r = mkArchiveResponse false None (Some ("Search failed: " ++ reason))
  end.

(** The reply sent to the tab for each outcome. *)
Definition replyFor (o : LookupOutcome) : ExtensionMessage :=
  match o with
  | Found u => mkMessage ARCHIVE_FOUND (mkPayload None (Some u) None)
  | NotFound =>
      mkMessage ARCHIVE_ERROR (mkPayload None None (Some "No archive results found"))
  | Failed reason =>
      mkMessage ARCHIVE_ERROR
        (mkPayload None None (Some ("Search failed: " ++ reason)))
  end.

End LookupSpec.

(** ** The content script *)

Module JArchiveContent.

Record UIState : Type := mkUIState {
  isLoading : bool;
  hasArchive : bool;
  archiveUrl : option string;
  error : option string
}.

(** What a notification card shows.  The markup of the cards is left out;
    a card is kept as the texts and the button the user sees. *)
Record Card : Type := mkCard {
  variant : string;       (* the class added to the content block *)
  title : string;
  body : string;
  openButton : bool
}.

Record ArchiveNotificationUI : Type := mkUI {
  container : option Card;      (* [null], or the element and what it shows *)
  state : UIState;
  currentUrl : option string    (* declared a string; [None] is [undefined] *)
}.

Definition new_ArchiveNotificationUI : ArchiveNotificationUI :=
  mkUI None (mkUIState false false None None) (Some "").

Definition getLoadingHTML : Card :=
  mkCard "" "Searching Archive..." "Looking for archived version on archive.ph" false.

Definition getArchiveFoundHTML : Card :=
  mkCard "j-archive-success" "Archive Found!" "Archived version is available" true.

Definition getErrorHTML (ui : ArchiveNotificationUI) : Card :=
  mkCard "j-archive-error" "Archive Not Found"
         (orElse (error (state ui)) "No archived version available") false.

Definition renderUI (ui : ArchiveNotificationUI) : ArchiveNotificationUI :=
  match container ui with
  | None => ui
  | Some shown =>
      let html :=
        if isLoading (state ui) then getLoadingHTML
        else if hasArchive (state ui) && truthy (archiveUrl (state ui))
             then getArchiveFoundHTML
        else if truthy (error (state ui)) then getErrorHTML ui
        else shown in
      mkUI (Some html) (state ui) (currentUrl ui)
  end.

(** [updateState(newState)]: [{ ...this.state, ...newState }], then render.
    A partial state is the function that overwrites the properties it
    lists. *)
Definition updateState (newState : UIState -> UIState) (ui : ArchiveNotificationUI)
  : ArchiveNotificationUI :=
  renderUI (mkUI (container ui) (newState (state ui)) (currentUrl ui)).

Definition cleanup (ui : ArchiveNotificationUI) : ArchiveNotificationUI :=
  mkUI None (state ui) (currentUrl ui).

(** [createNotificationUI()]: a fresh, empty container, rendered *)
Definition createNotificationUI (ui : ArchiveNotificationUI) : ArchiveNotificationUI :=
  let ui := cleanup ui in
  renderUI (mkUI (Some (mkCard "" "" "" false)) (state ui) (currentUrl ui)).

(** [init(url)]; [url] is what the caller read from the payload of the
    message, [None] when the payload has no [url]. *)
Definition init (url : option string) (ui : ArchiveNotificationUI)
  : ArchiveNotificationUI :=
  let ui := mkUI (container ui) (state ui) url in
  let ui := createNotificationUI ui in
  updateState (fun s => mkUIState true (hasArchive s) (archiveUrl s) (error s)) ui.

Definition handleMessage (message : ExtensionMessage) (ui : ArchiveNotificationUI)
  : ArchiveNotificationUI :=
  match type message with
  | ARCHIVE_FOUND =>
      updateState
        (fun _ => mkUIState false true (Messages.archiveUrl (payload message)) None) ui
  | ARCHIVE_ERROR =>
      updateState
        (fun _ => mkUIState false false None (Messages.error (payload message))) ui
  | _ => ui
  end.

(** The content script manager: the current UI, and the number of
    forwarding listeners registered so far (one more at every injection). *)
Record ContentScript : Type := mkContentScript {
  ui : option ArchiveNotificationUI;
  forwarders : nat
}.

Definition handleInjection (url : option string) (cs : ContentScript) : ContentScript :=
  mkContentScript (Some (init url new_ArchiveNotificationUI)) (S (forwarders cs)).

(** one forwarding listener receiving [message] *)
Definition forward (message : ExtensionMessage) (cs : ContentScript) : ContentScript :=
  match ui cs with
  | Some u =>
      if includes_type [ARCHIVE_FOUND; ARCHIVE_ERROR] (type message)
      then mkContentScript (Some (handleMessage message u)) (forwarders cs)
      else cs
  | None => cs
  end.

(** [chrome.runtime.onMessage] in the page: the listener of the manager,
    which calls [handleInjection(message.payload.url)] on every
    [INJECT_CONTENT_SCRIPT], then every forwarding listener *)
Definition onMessage (message : ExtensionMessage) (cs : ContentScript) : ContentScript :=
  let cs :=
    match type message with
    | INJECT_CONTENT_SCRIPT => handleInjection (url (payload message)) cs
    | _ => cs
    end in
  Nat.iter (forwarders cs) (forward message) cs.

End JArchiveContent.

(** ** Runs of the extension used as examples *)

Module Scenarios.
Import JArchiveBackground JArchiveContent.

Definition results_page : string :=
  "<html>TEXT-BLOCK<a>https://archive.ph/abc12</a></html>".

(** the lookup service answers every query with a page that holds a link *)
Definition fetch_found : Fetch :=
  fun _ _ => Returns (mkResponse 200 "OK" (Returns results_page)).

(** ... with a page without results *)
Definition fetch_no_result : Fetch :=
  fun _ _ => Returns (mkResponse 200 "OK" (Returns "<html>No results</html>")).

(** the request is aborted by the timeout signal *)
Definition fetch_timeout : Fetch :=
  fun _ _ => Throws (mkError "TimeoutError" "signal timed out").

(** the service answers 500 *)
Definition fetch_http500 : Fetch :=
  fun _ _ => Returns (mkResponse 500 "Internal Server Error" (Returns "")).

(** the service answers 200, and the connection is lost while the body is
    read: [response.text()] rejects *)
Definition fetch_body_lost : Fetch :=
  fun _ _ => Returns (mkResponse 200 "OK" (Throws (mkError "TypeError" "network error"))).

Definition worker_found (url : string) (tabId : option nat) : Sent :=
  handleFindArchive Url.plainHostParser fetch_found url tabId.

(** A tab whose lookup was started for [old_target] and, after the page
    went on to [new_target] without being reloaded, started again: the
    content script has handled the two injections. *)
Definition old_target : string := "https://a.example/old".
Definition new_target : string := "https://a.example/new".

Definition inject (url : string) : ExtensionMessage :=
  mkMessage INJECT_CONTENT_SCRIPT (mkPayload (Some url) None None).

Definition retriggered_tab : ContentScript :=
  onMessage (inject new_target)
    (onMessage (inject old_target) (mkContentScript None 0)).


(** the reply of the worker to the lookup of [old_target] *)
Definition late_reply : ExtensionMessage :=
  mkMessage ARCHIVE_FOUND (mkPayload None (Some "https://archive.ph/abc12") None).

End Scenarios.

(** ** The replies of the worker *)

Module Replies.

Definition foundReply (a : string) : ExtensionMessage :=
  mkMessage ARCHIVE_FOUND (mkPayload None (Some a) None).

Definition errorReply (e : string) : ExtensionMessage :=
  mkMessage ARCHIVE_ERROR (mkPayload None None (Some e)).

End Replies.

(** ** The listeners of the background service worker *)

Module BackgroundService.
Import Url JArchiveBackground.

(** What the worker asks of the browser, in the order of the calls. *)
Inductive Effect : Type :=
| InsertCSS (tabId : nat)                              (* chrome.scripting.insertCSS *)
| ExecuteScript (tabId : nat)                          (* chrome.scripting.executeScript *)
| SendToTab (tabId : nat) (message : ExtensionMessage) (* chrome.tabs.sendMessage *)
| CreateTab (url : option string).                     (* chrome.tabs.create, active *)

Definition sending (sent : Sent) : list Effect :=
  map (fun m => SendToTab (fst m) (snd m)) sent.

(** [chrome.tabs.Tab], as far as the worker reads it *)
Record Tab : Type := mkTab {
  id : option nat;
  url : option string
}.

(** a value used where a string is expected: [undefined] reads as the text
    "undefined" in [new URL(...)] and in [encodeURIComponent(...)] *)
Definition toString (v : option string) : string :=
  match v with
  | Some s => s
  | None => "undefined"
  end.

Section Listeners.

Variable hostParser : bool -> string -> option string.
Variable fetch : Fetch.
(** the answers of [chrome.scripting] for a tab *)
Variable insertCSS : nat -> Js.Result unit.
Variable executeScript : nat -> Js.Result unit.

(** [handleOpenArchive(archiveUrl)]: a failure of [chrome.tabs.create] is
    caught and logged *)
Definition handleOpenArchive (archiveUrl : option string) : list Effect :=
  [CreateTab archiveUrl].

(** the listener of [chrome.runtime.onMessage]; [senderTab] is
    [sender.tab?.id] *)
Definition onMessage (message : ExtensionMessage) (senderTab : option nat)
  : list Effect :=
  match type message with
  | FIND_ARCHIVE =>
      sending (handleFindArchive hostParser fetch
                 (toString (Messages.url (payload message))) senderTab)
  | OPEN_ARCHIVE => handleOpenArchive (Messages.url (payload message))
  | _ => []
  end.

(** [injectContentScript(tabId)]: the style sheet first, then the script;
    an error is logged and thrown again *)
Definition injectContentScript (tabId : nat) : list Effect * Js.Result unit :=
  match insertCSS tabId with
  | Throws e => ([InsertCSS tabId], Throws e)
  | Returns _ =>
      match executeScript tabId with
      | Throws e => ([InsertCSS tabId; ExecuteScript tabId], Throws e)
      | Returns _ => ([InsertCSS tabId; ExecuteScript tabId], Returns tt)
      end
  end.

(** the listener of [chrome.action.onClicked]; the search is started by a
    timer 100 ms after the injection *)
Definition onClicked (tab : Tab) : list Effect :=
  match id tab, url tab with
  | Some (S n), Some (String c u) =>
      let tabId := S n in
      let tabUrl := String c u in
      match isValidUrl hostParser tabUrl with
      | Returns true =>
          match injectContentScript tabId with
          | (effects, Returns _) =>
              (effects ++ sending (initiateArchiveSearch hostParser fetch tabUrl tabId))%list
          | (effects, Throws _) => effects
          end
      | _ => []
      end
  | _, _ => []
  end.

End Listeners.

End BackgroundService.

(** the browser injects every file; the browser refuses the page *)
Module Injections.

Definition injection_ok : nat -> Js.Result unit := fun _ => Returns tt.
Definition injection_refused : nat -> Js.Result unit :=
  fun _ => Throws (mkError "Error" "Cannot access contents of the page").

End Injections.

(** ** The actions of the notification UI *)

Module NotificationActions.
Import JArchiveContent.

(** a timer set by the UI *)
Inductive Timer : Type :=
| CleanupAfter (ms : nat).      (* [setTimeout(() => this.cleanup(), ms)] *)

(** What a method does besides changing the UI: the messages given to
    [chrome.runtime.sendMessage] and the timers set. *)
Definition Actions : Type := (list ExtensionMessage * list Timer)%type.

(** [close()]: without container nothing; else the closing class is added
    (a matter of style, not kept in a card) and the clean-up is set for
    300 ms later *)
Definition close (u : ArchiveNotificationUI) : Actions :=
  match container u with
  | None => ([], [])
  | Some _ => ([], [CleanupAfter 300])
  end.

Definition openArchive (u : ArchiveNotificationUI) : Actions :=
  if truthy (archiveUrl (state u)) then
    let '(_, timers) := close u in
    ([mkMessage OPEN_ARCHIVE (mkPayload (archiveUrl (state u)) None None)], timers)
  else ([], []).

(** [handleClick(event)], on the id of the element clicked *)
Definition handleClick (targetId : string) (u : ArchiveNotificationUI) : Actions :=
  if targetId =? "j-archive-close-btn" then close u
  else if targetId =? "j-archive-open-btn" then openArchive u
  else ([], []).

(** the card that goes with a state: what [renderUI] puts in a container,
    [None] when it leaves the container as it is *)
Definition cardOf (u : ArchiveNotificationUI) : option Card :=
  if isLoading (state u) then Some getLoadingHTML
  else if hasArchive (state u) && truthy (archiveUrl (state u))
       then Some getArchiveFoundHTML
  else if truthy (error (state u)) then Some (getErrorHTML u)
  else None.

End NotificationActions.

(** ** The in-page UI component ([ArchiveUI]) *)

Module ArchiveUIComponent.

Definition UIState : Type := JArchiveContent.UIState.

Record Card : Type := mkCard {
  variant : string;       (* the class added to the card *)
  title : string;
  body : string;
  openButton : bool;
  retryButton : bool
}.

Record ArchiveUI : Type := mkArchiveUI {
  container : option Card;
  state : UIState
}.

Definition getLoadingHTML : Card :=
  mkCard "" "Searching Archive..." "Looking for cached version on archive.ph"
         false false.

Definition getArchiveFoundHTML : Card :=
  mkCard "j-archive-success" "Archive Found!"
         "Cached version is available on archive.ph" true false.

Definition getErrorHTML (u : ArchiveUI) : Card :=
  mkCard "j-archive-error" "Archive Not Found"
         (orElse (JArchiveContent.error (state u)) "No cached version available")
         false true.

Definition renderUI (u : ArchiveUI) : ArchiveUI :=
  match container u with
  | None => u
  | Some shown =>
      let html :=
        if JArchiveContent.isLoading (state u) then getLoadingHTML
        else if JArchiveContent.hasArchive (state u)
                && truthy (JArchiveContent.archiveUrl (state u))
             then getArchiveFoundHTML
        else if truthy (JArchiveContent.error (state u)) then getErrorHTML u
        else shown in
      mkArchiveUI (Some html) (state u)
  end.

Definition updateState (newState : UIState -> UIState) (u : ArchiveUI) : ArchiveUI :=
  renderUI (mkArchiveUI (container u) (newState (state u))).

(** [findArchive()]: the page asks again, for [href], the address of the
    page ([window.location.href]); the message goes to
    [chrome.runtime.sendMessage] *)
Definition findArchive (href : string) (u : ArchiveUI)
  : ArchiveUI * list ExtensionMessage :=
  (updateState
     (fun s => JArchiveContent.mkUIState true (JArchiveContent.hasArchive s)
                                         (JArchiveContent.archiveUrl s) None) u,
   [mkMessage FIND_ARCHIVE (mkPayload (Some href) None None)]).

Definition openArchive (u : ArchiveUI) : list ExtensionMessage :=
  if truthy (JArchiveContent.archiveUrl (state u)) then
    [mkMessage OPEN_ARCHIVE
       (mkPayload (JArchiveContent.archiveUrl (state u)) None None)]
  else [].

Definition handleClick (targetId href : string) (u : ArchiveUI)
  : ArchiveUI * list ExtensionMessage :=
  if targetId =? "j-archive-retry-btn" then findArchive href u
  else if targetId =? "j-archive-open-btn" then (u, openArchive u)
  else (u, []).

(** Here a message overwrites only the properties it lists: [error] is
    kept by ARCHIVE_FOUND, [archiveUrl] by ARCHIVE_ERROR. *)
Definition handleMessage (message : ExtensionMessage) (u : ArchiveUI) : ArchiveUI :=
  match type message with
  | ARCHIVE_FOUND =>
      updateState
        (fun s => JArchiveContent.mkUIState false true
                    (Messages.archiveUrl (payload message))
                    (JArchiveContent.error s)) u
  | ARCHIVE_ERROR =>
      updateState
        (fun s => JArchiveContent.mkUIState false false
                    (JArchiveContent.archiveUrl s)
                    (Messages.error (payload message))) u
  | _ => u
  end.

End ArchiveUIComponent.

(** ** Messages on their way from the worker to the page *)

Module Delivery.
Import BackgroundService JArchiveContent.

(** the messages among [effects] that are sent to the tab [t], in order *)
Fixpoint messagesTo (t : nat) (effects : list Effect) : list ExtensionMessage :=
  match effects with
  | [] => []
  | SendToTab t' m :: rest =>
      if (t' =? t)%nat then m :: messagesTo t rest else messagesTo t rest
  | _ :: rest => messagesTo t rest
  end.

(** the content script of the page receives [messages] one after the other *)
Definition deliver (messages : list ExtensionMessage) (cs : ContentScript)
  : ContentScript :=
  fold_left (fun cs m => onMessage m cs) messages cs.

(** the error card with the text [e] *)
Definition errorCard (e : string) : Card :=
  mkCard "j-archive-error" "Archive Not Found" e false.

(** the UI after one of the replies that the worker sends *)
Definition settled (v : ArchiveNotificationUI) : Prop :=
  (exists a, Extractor.is_archive_link a /\
             state v = mkUIState false true (Some a) None /\
             container v = Some getArchiveFoundHTML) \/
  (exists e, e <> "" /\
             state v = mkUIState false false None (Some e) /\
             container v = Some (errorCard e)).

End Delivery.

(** the component showing a link found earlier *)
Module ArchiveUIScenario.
Import ArchiveUIComponent.

Definition shown_found : ArchiveUI :=
  mkArchiveUI (Some getArchiveFoundHTML)
    (JArchiveContent.mkUIState false true (Some "https://archive.ph/abc12") None).

End ArchiveUIScenario.

(** ** Reading an escaped component back *)

Module UriSpec.
Import Url JArchiveBackground.

(** the value of a hexadecimal digit written by [hexDigit] *)
Definition hexValue (c : ascii) : nat :=
  if isDigit c then code c - 48 else code c - 55.

(** the inverse of [encodeURIComponent] on its own results: [%XY] is read
    as the byte of value [XY], any other character as itself *)
Fixpoint unescape (fuel : nat) (s : string) : string :=
  match fuel with
  | O => EmptyString
  | S fuel' =>
      match s with
      | EmptyString => EmptyString
      | String c s' =>
          if Ascii.eqb c "%" then
            match s' with
            | String h (String l s'') =>
                String (ascii_of_nat (16 * hexValue h + hexValue l)) (unescape fuel' s'')
            | _ => EmptyString
            end
          else String c (unescape fuel' s')
      end
  end.

(** a character that [encodeURIComponent] writes: an unreserved one, or
    the percent sign of an escape *)
Definition isEscaped (c : ascii) : bool := isUriUnreserved c || Ascii.eqb c "%".

End UriSpec.

(** * Properties *)

(** ** Facts about strings *)

Module JsStringFacts.

Lemma append_empty_r (s : string) : s ++ "" = s.
Proof. induction s as [|c s IH]; simpl; [reflexivity | now rewrite IH]. Qed.

Lemma append_assoc (a b c : string) : (a ++ b) ++ c = a ++ b ++ c.
Proof. induction a as [|x a IH]; simpl; [reflexivity | now rewrite IH]. Qed.

Lemma length_append (a b : string) :
  String.length (a ++ b) = String.length a + String.length b.
Proof. induction a as [|x a IH]; simpl; [reflexivity | now rewrite IH]. Qed.

Lemma append_inv_head (a b c : string) : a ++ b = a ++ c -> b = c.
Proof.
  induction a as [|x a IH]; simpl; intros H; [exact H | injection H as H; auto].
Qed.

Lemma append_inv_tail (a b c : string) : a ++ c = b ++ c -> a = b.
Proof.
  revert b; induction a as [|x a IH]; intros [|y b] H; simpl in H.
  - reflexivity.
  - apply (f_equal String.length) in H. simpl in H. rewrite length_append in H. lia.
  - apply (f_equal String.length) in H. simpl in H. rewrite length_append in H. lia.
  - injection H as -> H. f_equal. auto.
Qed.

Lemma length_zero_empty (s : string) : String.length s = 0 -> s = "".
Proof. destruct s; simpl; [reflexivity | discriminate]. Qed.

Lemma startsWith_iff (p s : string) :
  startsWith p s = true <-> exists r, s = p ++ r.
Proof.
  revert s; induction p as [|a p IH]; intros s; simpl.
  - split; [intros _; now exists s | reflexivity].
  - destruct s as [|b s]; [split; [discriminate | intros [r H]; discriminate]|].
    rewrite andb_true_iff, Ascii.eqb_eq, IH. split.
    + intros [-> [r ->]]. now exists r.
    + intros [r H]. injection H as -> ->. split; [reflexivity | now exists r].
Qed.

Lemma startsWith_append (p r : string) : startsWith p (p ++ r) = true.
Proof. apply startsWith_iff. now exists r. Qed.

Lemma drop_0 (s : string) : drop 0 s = s.
Proof. now destruct s. Qed.

Lemma drop_append (a b : string) : drop (String.length a) (a ++ b) = b.
Proof. induction a as [|x a IH]; simpl; [apply drop_0 | exact IH]. Qed.

Lemma length_drop (n : nat) (s : string) :
  String.length (drop n s) = String.length s - n.
Proof.
  revert s; induction n as [|n IH]; intros [|c s]; simpl; auto.
Qed.

Lemma drop_all (n : nat) (s : string) : String.length s <= n -> drop n s = "".
Proof.
  intros H. apply length_zero_empty. rewrite length_drop. lia.
Qed.

Lemma takeWhile_dropWhile (p : ascii -> bool) (s : string) :
  takeWhile p s ++ dropWhile p s = s.
Proof.
  induction s as [|c s IH]; simpl; [reflexivity|].
  destruct (p c); simpl; [now rewrite IH | reflexivity].
Qed.

Lemma all_takeWhile (p : ascii -> bool) (s : string) : all p (takeWhile p s) = true.
Proof.
  induction s as [|c s IH]; simpl; [reflexivity|].
  destruct (p c) eqn:E; simpl; [now rewrite E | reflexivity].
Qed.

Lemma takeWhile_append_all (p : ascii -> bool) (a b : string) :
  all p a = true -> takeWhile p (a ++ b) = a ++ takeWhile p b.
Proof.
  induction a as [|c a IH]; simpl; [reflexivity|].
  intros H. apply andb_true_iff in H as [-> H]. now rewrite IH.
Qed.

Lemma all_append (p : ascii -> bool) (a b : string) :
  all p (a ++ b) = all p a && all p b.
Proof.
  induction a as [|c a IH]; simpl; [reflexivity|]. now rewrite IH, andb_assoc.
Qed.

(** [find] returns the first occurrence. *)
Lemma find_first (needle pre post : string) :
  (forall pre' post', pre ++ needle ++ post = pre' ++ needle ++ post' ->
                      String.length pre <= String.length pre') ->
  find needle (pre ++ needle ++ post) = Some (String.length pre).
Proof.
  induction pre as [|c pre IH]; intros Hmin.
  - simpl append. destruct (needle ++ post) eqn:E; simpl;
      rewrite <- ?E, startsWith_append; reflexivity.
  - simpl. destruct (startsWith needle (String c (pre ++ needle ++ post))) eqn:E.
    + apply startsWith_iff in E as [r E].
      specialize (Hmin "" r). simpl in Hmin. specialize (Hmin E). lia.
    + rewrite IH; [reflexivity|].
      intros pre' post' H. specialize (Hmin (String c pre') post').
      simpl in Hmin. rewrite H in Hmin. specialize (Hmin eq_refl). lia.
Qed.

(** [find] fails exactly when the needle does not occur. *)
Lemma find_none (needle s : string) :
  (forall pre post, s <> pre ++ needle ++ post) -> find needle s = None.
Proof.
  induction s as [|c s IH]; intros H.
  - simpl. destruct (startsWith needle "") eqn:E; [|reflexivity].
    apply startsWith_iff in E as [r E]. exfalso. apply (H "" r). exact E.
  - simpl. destruct (startsWith needle (String c s)) eqn:E.
    + apply startsWith_iff in E as [r E]. exfalso. apply (H "" r). exact E.
    + rewrite IH; [reflexivity|]. intros pre post ->.
      apply (H (String c pre) post). reflexivity.
Qed.

Lemma find_occurrence (needle pre post : string) :
  find needle (pre ++ needle ++ post) <> None.
Proof.
  induction pre as [|c pre IH].
  - simpl append. destruct (needle ++ post) eqn:E; simpl;
      rewrite <- ?E, startsWith_append; discriminate.
  - simpl. destruct (startsWith needle (String c (pre ++ needle ++ post)));
      [discriminate|].
    destruct (find needle (pre ++ needle ++ post)); [discriminate | exact IH].
Qed.

Lemma find_none_absent (needle s : string) :
  find needle s = None -> forall pre post, s <> pre ++ needle ++ post.
Proof. intros H pre post ->. exact (find_occurrence _ _ _ H). Qed.

Lemma find_some_least (needle s : string) (n : nat) :
  find needle s = Some n ->
  forall pre post, s = pre ++ needle ++ post -> n <= String.length pre.
Proof.
  revert n; induction s as [|c s IH]; intros n H pre post E.
  - simpl in H. destruct (startsWith needle ""); [|discriminate].
    injection H as <-. lia.
  - simpl in H. destruct (startsWith needle (String c s)) eqn:P.
    + injection H as <-. lia.
    + destruct (find needle s) as [k|] eqn:F; [|discriminate].
      injection H as <-. destruct pre as [|x pre].
      * simpl in E. rewrite E, startsWith_append in P. discriminate.
      * simpl in E. injection E as -> E. simpl.
        specialize (IH k eq_refl pre post E). lia.
Qed.

Lemma all_impl (p q : ascii -> bool) (s : string) :
  (forall c, p c = true -> q c = true) -> all p s = true -> all q s = true.
Proof.
  intros H. induction s as [|c s IH]; simpl; [reflexivity|].
  rewrite !andb_true_iff. intros [Hc Hs]. auto.
Qed.

Lemma takeWhile_stop (p : ascii -> bool) (a b : string) :
  all p a = true -> stops p b -> takeWhile p (a ++ b) = a.
Proof.
  intros A B. rewrite takeWhile_append_all by exact A.
  destruct b as [|c b]; simpl in *; [|rewrite B]; apply append_empty_r.
Qed.

Lemma dropWhile_stop (p : ascii -> bool) (a b : string) :
  all p a = true -> stops p b -> dropWhile p (a ++ b) = b.
Proof.
  intros A B. induction a as [|c a IH]; simpl in *.
  - destruct b as [|d b]; simpl in *; [reflexivity | now rewrite B].
  - apply andb_true_iff in A as [-> A]. auto.
Qed.

Lemma all_none_any (p : ascii -> bool) (s : string) :
  all (fun c => negb (p c)) s = true -> any p s = false.
Proof.
  induction s as [|c s IH]; simpl; [reflexivity|].
  rewrite andb_true_iff, negb_true_iff. intros [-> H]. auto.
Qed.

End JsStringFacts.
Import JsStringFacts.

(** ** The result extractor *)

Module ExtractorFacts.
Import Extractor.

Lemma link_length (m : string) : is_archive_link m -> 24 <= String.length m.
Proof.
  intros (id & -> & _ & H). rewrite length_append. simpl. lia.
Qed.

(** The matcher at one position, against the description of a link. *)
Lemma exec_at_iff (s m : string) :
  exec_at s = Some m <->
  exists b, s = m ++ b /\ is_archive_link m /\ token_ends b.
Proof.
  unfold exec_at. split.
  - destruct (startsWith LINK_PREFIX s) eqn:E; [|discriminate].
    apply startsWith_iff in E as [r ->]. rewrite drop_append.
    destruct (5 <=? String.length (takeWhile isAlnum r))%nat eqn:L; [|discriminate].
    intros H. assert (M : m = LINK_PREFIX ++ takeWhile isAlnum r) by congruence.
    clear H. subst m. apply Nat.leb_le in L.
    exists (dropWhile isAlnum r). repeat split.
    + now rewrite append_assoc, takeWhile_dropWhile.
    + exists (takeWhile isAlnum r). auto using all_takeWhile.
    + clear L. induction r as [|c r IH]; simpl; [exact I|].
      destruct (isAlnum c) eqn:C; [exact IH | exact C].
  - intros (b & -> & (id & -> & Hid & Hlen) & Hb).
    rewrite append_assoc, startsWith_append, drop_append.
    rewrite takeWhile_append_all by exact Hid.
    assert (takeWhile isAlnum b = "") as ->.
    { destruct b as [|c b]; simpl in *; [reflexivity | now rewrite Hb]. }
    rewrite append_empty_r. apply Nat.leb_le in Hlen. now rewrite Hlen.
Qed.

Lemma exec_at_none_iff (s : string) :
  exec_at s = None <-> ~ starts_with_link s.
Proof.
  split.
  - intros H (m & r & -> & id & -> & Hid & Hlen).
    unfold exec_at in H.
    rewrite append_assoc, startsWith_append, drop_append in H.
    rewrite takeWhile_append_all in H by exact Hid.
    rewrite length_append in H.
    destruct (Nat.leb_spec 5 (String.length id + String.length (takeWhile isAlnum r)));
      [discriminate | lia].
  - intros H. destruct (exec_at s) as [m|] eqn:E; [|reflexivity].
    exfalso. apply H. apply exec_at_iff in E as (b & -> & Hm & _).
    now exists m, b.
Qed.

Lemma first_match_cons (c : ascii) (s : string) :
  first_match (String c s) =
  match exec_at (String c s) with
  | Some m => Some m
  | None => first_match s
  end.
Proof.
  unfold first_match. simpl matchAll_from.
  now destruct (exec_at (String c s)).
Qed.

Lemma parse_is_first_match (html url : string) :
  parseArchiveResults html url = first_match (slice html (indexOf html MARKER)).
Proof.
  unfold parseArchiveResults, str_match, first_match.
  now destruct (matchAll_from 0 _).
Qed.

Lemma first_match_some (s m : string) :
  first_match s = Some m <-> first_link_of s m.
Proof.
  induction s as [|c s IH].
  - split; [discriminate|].
    intros (a & b & E & L & _). apply link_length in L.
    apply (f_equal String.length) in E. rewrite !length_append in E. simpl in E. lia.
  - rewrite first_match_cons. destruct (exec_at (String c s)) as [m0|] eqn:X.
    + split.
      * intros [= ->]. apply exec_at_iff in X as (b & E & L & T).
        exists "", b. simpl. repeat split; auto. intros k Hk. lia.
      * intros (a & b & E & L & T & N). destruct a as [|x a].
        -- simpl in E. assert (exec_at (String c s) = Some m) as X'
             by (apply exec_at_iff; now exists b).
           congruence.
        -- exfalso. apply (N 0); [simpl; lia|]. simpl.
           apply exec_at_iff in X as (b0 & -> & L0 & _). now exists m0, b0.
    + apply exec_at_none_iff in X. rewrite IH. split.
      * intros (a & b & -> & L & T & N). exists (String c a), b.
        repeat split; auto. intros [|k] Hk; simpl in *; [exact X|].
        apply N. lia.
      * intros (a & b & E & L & T & N). destruct a as [|x a].
        -- exfalso. apply X. simpl in E. rewrite E. now exists m, b.
        -- simpl in E. injection E as -> ->. exists a, b.
           repeat split; auto. intros k Hk. apply (N (S k)). simpl. lia.
Qed.

Lemma first_match_none (s : string) :
  first_match s = None <-> no_link_in s.
Proof.
  induction s as [|c s IH].
  - split; [|reflexivity]. intros _ k (m & r & E & L).
    apply link_length in L. apply (f_equal String.length) in E.
    rewrite length_drop, length_append in E. simpl in E. lia.
  - rewrite first_match_cons. destruct (exec_at (String c s)) as [m0|] eqn:X.
    + split; [discriminate|]. intros N. exfalso. apply (N 0). simpl.
      apply exec_at_iff in X as (b0 & -> & L0 & _). now exists m0, b0.
    + apply exec_at_none_iff in X. rewrite IH. split.
      * intros N [|k]; [exact X | exact (N k)].
      * intros N k. exact (N (S k)).
Qed.

(** No match starts inside the marker: the search over the text cut at the
    marker is the search over the text that follows the marker. *)
Lemma first_match_marker (post : string) :
  first_match (MARKER ++ post) = first_match post.
Proof. reflexivity. Qed.

(** A text shorter than the literal of the pattern has no match. *)
Lemma first_match_short (s : string) :
  String.length s <= 1 -> first_match s = None.
Proof.
  destruct s as [|c [|d s]]; simpl; intros H; try lia; [reflexivity|].
  rewrite first_match_cons. unfold exec_at. simpl.
  now rewrite andb_false_r.
Qed.

(** C4: the marker does not occur in the document -> the extractor returns
    nothing ([null]), whatever the document holds, links included. *)
Theorem parse_no_marker (html originalUrl : string) :
  (forall pre post, html <> pre ++ MARKER ++ post) ->
  parseArchiveResults html originalUrl = None.
Proof.
  intros H. rewrite parse_is_first_match.
  unfold indexOf. rewrite (find_none _ _ H).
  apply first_match_short. unfold slice.
  change (-1 <? 0)%Z with true. cbv iota.
  rewrite length_drop. lia.
Qed.

Lemma parse_no_marker_witness :
  let html := "<a href='https://archive.ph/abc12'>x</a>" in
  (forall pre post, html <> pre ++ MARKER ++ post) /\
  parseArchiveResults html "https://a.com/p" = None.
Proof.
  intros html.
  assert (H : forall pre post, html <> pre ++ MARKER ++ post)
    by (apply find_none_absent; reflexivity).
  split; [exact H | exact (parse_no_marker html "https://a.com/p" H)].
Defined.

Lemma slice_at (pre rest : string) :
  slice (pre ++ rest) (Z.of_nat (String.length pre)) = rest.
Proof.
  unfold slice.
  destruct (Z.ltb_spec (Z.of_nat (String.length pre)) 0) as [H|_]; [lia|].
  rewrite length_append, Z.min_l, Nat2Z.id by lia. apply drop_append.
Qed.

(** C5: the document holds the marker, first at the end of [pre] -> the
    extractor returns the first link of the text after the marker, with
    its identifier taken whole, whatever links come later; it returns
    nothing exactly when no link starts anywhere after the marker. *)
Theorem parse_first_link (pre post originalUrl : string) :
  (forall pre' post', pre ++ MARKER ++ post = pre' ++ MARKER ++ post' ->
                      String.length pre <= String.length pre') ->
  (forall m, parseArchiveResults (pre ++ MARKER ++ post) originalUrl = Some m <->
             first_link_of post m) /\
  (parseArchiveResults (pre ++ MARKER ++ post) originalUrl = None <->
   no_link_in post).
Proof.
  intros Hmin.
  assert (E : parseArchiveResults (pre ++ MARKER ++ post) originalUrl = first_match post).
  { rewrite parse_is_first_match. unfold indexOf.
    rewrite (find_first _ _ _ Hmin), slice_at. apply first_match_marker. }
  rewrite E. split; [intros m; apply first_match_some | apply first_match_none].
Qed.

Lemma parse_first_link_witness :
  let pre := "<html>" in
  let post := "<a>https://archive.ph/abc12 https://archive.ph/zzz99</a>" in
  (forall pre' post', pre ++ MARKER ++ post = pre' ++ MARKER ++ post' ->
                      String.length pre <= String.length pre') /\
  first_link_of post "https://archive.ph/abc12".
Proof.
  intros pre post.
  assert (H : forall pre' post', pre ++ MARKER ++ post = pre' ++ MARKER ++ post' ->
                                 String.length pre <= String.length pre').
  { intros pre' post' E.
    apply (find_some_least MARKER (pre ++ MARKER ++ post) 6 eq_refl pre' post' E). }
  split; [exact H|].
  apply (proj1 (parse_first_link pre post "https://a.com/p" H)). reflexivity.
Defined.

(** The scenario of the design document: two links follow the marker, the
    first one is returned. *)
Example parse_two_links :
  parseArchiveResults
    "...TEXT-BLOCK...https://archive.ph/abc12 https://archive.ph/zzz99" "u"
  = Some "https://archive.ph/abc12".
Proof. reflexivity. Qed.

End ExtractorFacts.

(** ** The background worker: clean-up of the URL and the lookup *)

Module WorkerFacts.
Import Url JArchiveBackground Extractor LookupSpec.

Lemma represents_unique (r : ArchiveResponse) (o o' : LookupOutcome) :
  represents r o -> represents r o' -> o = o'.
Proof.
  destruct o, o'; simpl; intros -> H; try discriminate; try reflexivity.
  - now injection H as ->.
  - injection H as H. now rewrite H.
Qed.

Section Worker.

Variable hostParser : bool -> string -> option string.

Lemma cleanUrl_value (url : string) :
  cleanUrl hostParser url =
  Returns match parse hostParser url with
          | Some u => protocol u ++ "//" ++ host u ++ pathname u
          | None => url
          end.
Proof.
  unfold cleanUrl, new_URL. now destruct (parse hostParser url).
Qed.

Lemma isValidUrl_value (url : string) :
  isValidUrl hostParser url =
  Returns match parse hostParser url with
          | Some u => includes ["http:"; "https:"] (protocol u)
          | None => false
          end.
Proof.
  unfold isValidUrl, new_URL. now destruct (parse hostParser url).
Qed.

Lemma cleanUrl_total (url : string) :
  exists cleaned, cleanUrl hostParser url = Returns cleaned.
Proof. rewrite cleanUrl_value. eauto. Qed.

Variable fetch : Fetch.

Lemma findArchiveVersion_value (url cleaned : string) :
  cleanUrl hostParser url = Returns cleaned ->
  findArchiveVersion hostParser fetch url =
  searchArchiveResults fetch (buildArchiveSearchUrl cleaned) cleaned.
Proof.
  intros H. unfold findArchiveVersion. rewrite H. simpl.
  unfold searchArchiveResults, try_catch.
  now destruct (Js.bind _ _).
Qed.

(** Every path through [searchArchiveResults] ends in one outcome. *)
Lemma searchArchiveResults_outcome (searchUrl originalUrl : string) :
  exists r o, searchArchiveResults fetch searchUrl originalUrl = Returns r /\
              represents r o.
Proof.
  unfold searchArchiveResults.
  destruct (fetch searchUrl ARCHIVE_TIMEOUT) as [resp|e]; simpl.
  2: { eexists; exists (Failed (message e)); split; reflexivity. }
  destruct (ok resp); simpl.
  2: { eexists; eexists (Failed _); split; reflexivity. }
  destruct (text resp) as [html|e]; simpl.
  2: { eexists; exists (Failed (message e)); split; reflexivity. }
  destruct (parseArchiveResults html originalUrl) as [[|c m]|]; simpl.
  - eexists; exists NotFound; split; reflexivity.
  - eexists; exists (Found (String c m)); split; reflexivity.
  - eexists; exists NotFound; split; reflexivity.
Qed.

(** The answer of [searchArchiveResults], path by path. *)
Lemma searchArchiveResults_answer (searchUrl originalUrl : string) :
  (forall e, fetch searchUrl ARCHIVE_TIMEOUT = Throws e ->
     searchArchiveResults fetch searchUrl originalUrl
     = Returns (mkArchiveResponse false None (Some ("Search failed: " ++ message e)))) /\
  (forall resp, fetch searchUrl ARCHIVE_TIMEOUT = Returns resp -> ok resp = false ->
     searchArchiveResults fetch searchUrl originalUrl
     = Returns (mkArchiveResponse false None
                  (Some ("Search failed: " ++ "HTTP " ++ numberToString (status resp)
                                           ++ ": " ++ statusText resp)))) /\
  (forall resp e, fetch searchUrl ARCHIVE_TIMEOUT = Returns resp -> ok resp = true ->
     text resp = Throws e ->
     searchArchiveResults fetch searchUrl originalUrl
     = Returns (mkArchiveResponse false None (Some ("Search failed: " ++ message e)))) /\
  (forall resp html, fetch searchUrl ARCHIVE_TIMEOUT = Returns resp -> ok resp = true ->
     text resp = Returns html ->
     searchArchiveResults fetch searchUrl originalUrl
     = Returns match parseArchiveResults html originalUrl with
               | Some a => mkArchiveResponse true (Some a) None
               | None => mkArchiveResponse false None (Some "No archive results found")
               end).
Proof.
  unfold searchArchiveResults. repeat split.
  - intros e F. rewrite F. reflexivity.
  - intros resp F K. rewrite F. simpl. rewrite K. reflexivity.
  - intros resp e F K T. rewrite F. simpl. rewrite K. simpl. rewrite T. reflexivity.
  - intros resp html F K T. rewrite F. simpl. rewrite K. simpl. rewrite T. simpl.
    destruct (parseArchiveResults html originalUrl) as [a|] eqn:P; [|reflexivity].
    rewrite ExtractorFacts.parse_is_first_match in P.
    apply ExtractorFacts.first_match_some in P.
    destruct P as (_ & _ & _ & L & _).
    apply ExtractorFacts.link_length in L.
    destruct a; [simpl in L; lia | reflexivity].
Qed.

(** C6: the lookup never throws and gives one answer, which stands for
    exactly one of the three outcomes, and which one is fixed by what the
    request did: a rejected request (network error, timeout) gives Failed
    with the message of the error as reason, a response whose status is not
    2xx gives Failed with the status line, a 2xx response whose body cannot
    be read gives Failed with the message of that error, and a 2xx response
    that was read gives Found with the link the extractor finds in it, or
    NotFound when it finds none. *)
Theorem findArchiveVersion_one_outcome (url : string) :
  exists r,
    findArchiveVersion hostParser fetch url = Returns r /\
    (exists o, represents r o /\ forall o', represents r o' -> o' = o) /\
    forall cleaned, cleanUrl hostParser url = Returns cleaned ->
      let searchUrl := buildArchiveSearchUrl cleaned in
      (forall e, fetch searchUrl ARCHIVE_TIMEOUT = Throws e ->
                 represents r (Failed (message e))) /\
      (forall resp, fetch searchUrl ARCHIVE_TIMEOUT = Returns resp ->
                    ok resp = false ->
                    represents r (Failed ("HTTP " ++ numberToString (status resp)
                                          ++ ": " ++ statusText resp))) /\
      (forall resp e, fetch searchUrl ARCHIVE_TIMEOUT = Returns resp ->
                      ok resp = true -> text resp = Throws e ->
                      represents r (Failed (message e))) /\
      (forall resp html, fetch searchUrl ARCHIVE_TIMEOUT = Returns resp ->
                         ok resp = true -> text resp = Returns html ->
                         represents r match parseArchiveResults html cleaned with
                                      | Some a => Found a
                                      | None => NotFound
                                      end).
Proof.
  destruct (cleanUrl_total url) as [c C].
  rewrite (findArchiveVersion_value _ _ C).
  destruct (searchArchiveResults_outcome (buildArchiveSearchUrl c) c)
    as (r & o & R & O).
  exists r. split; [exact R|]. split.
  - exists o. split; [exact O|]. intros o' O'. exact (represents_unique _ _ _ O' O).
  - intros cleaned C'. assert (cleaned = c) as -> by congruence.
    destruct (searchArchiveResults_answer (buildArchiveSearchUrl c) c)
      as (A1 & A2 & A3 & A4).
    cbv zeta. split; [|split; [|split]].
    + intros e F. rewrite (A1 e F) in R. injection R as <-. reflexivity.
    + intros resp F K. rewrite (A2 resp F K) in R. injection R as <-. reflexivity.
    + intros resp e F K T. rewrite (A3 resp e F K T) in R. injection R as <-.
      reflexivity.
    + intros resp html F K T. rewrite (A4 resp html F K T) in R. injection R as <-.
      now destruct (parseArchiveResults html c).
Qed.

(** An answer that says success carries a link of the lookup host. *)
Lemma searchArchiveResults_success (searchUrl originalUrl : string) (r : ArchiveResponse) :
  searchArchiveResults fetch searchUrl originalUrl = Returns r ->
  success r = true ->
  exists a, archiveUrl r = Some a /\ is_archive_link a.
Proof.
  unfold searchArchiveResults.
  destruct (fetch searchUrl ARCHIVE_TIMEOUT) as [resp|e]; simpl.
  2: { intros [= <-]; discriminate. }
  destruct (ok resp); simpl.
  2: { intros [= <-]; discriminate. }
  destruct (text resp) as [html|e]; simpl.
  2: { intros [= <-]; discriminate. }
  destruct (parseArchiveResults html originalUrl) as [a|] eqn:P; simpl.
  2: { intros [= <-]; discriminate. }
  destruct a as [|c a]; simpl; intros [= <-]; [discriminate|]. intros _.
  exists (String c a). split; [reflexivity|].
  rewrite ExtractorFacts.parse_is_first_match in P.
  apply ExtractorFacts.first_match_some in P.
  destruct P as (_ & _ & _ & L & _). exact L.
Qed.

Lemma handleFindArchive_reply (url : string) (tab : nat) (r : ArchiveResponse)
      (o : LookupOutcome) :
  findArchiveVersion hostParser fetch url = Returns r ->
  represents r o ->
  o <> Found "" ->
  handleFindArchive hostParser fetch url (Some (S tab)) = [(S tab, replyFor o)].
Proof.
  intros F R N. unfold handleFindArchive. rewrite F.
  destruct o as [[|c u]| |reason]; simpl in R; subst r; simpl;
    [congruence | reflexivity ..].
Qed.

(** C10: a message ARCHIVE_FOUND sent to a tab carries an [archiveUrl]
    that is [https://archive.ph/] followed by at least five alphanumeric
    characters. *)
Theorem archive_found_is_link (url : string) (tabId : option nat) (tab : nat)
        (message : ExtensionMessage) :
  In (tab, message) (handleFindArchive hostParser fetch url tabId) ->
  type message = ARCHIVE_FOUND ->
  exists a, Messages.archiveUrl (payload message) = Some a /\ is_archive_link a.
Proof.
  unfold handleFindArchive. destruct tabId as [[|t]|]; simpl; try tauto.
  destruct (cleanUrl_total url) as [c C].
  rewrite (findArchiveVersion_value _ _ C).
  destruct (searchArchiveResults fetch (buildArchiveSearchUrl c) c) as [r|e] eqn:S.
  2: { simpl. intros [[= <- <-]|[]]. discriminate. }
  destruct (success r) eqn:OK; simpl.
  - destruct (searchArchiveResults_success _ _ _ S OK) as (a & A & L).
    rewrite A. destruct (truthy (Some a)); simpl; intros [[= <- <-]|[]]; simpl.
    + intros _. exists a. auto.
    + discriminate.
  - intros [[= <- <-]|[]]. discriminate.
Qed.

(** C9: [cleanUrl] throws on no input; an input that the URL parser
    rejects is returned as it is, and the lookup is then made with the query
    built from that very string. *)
Theorem cleanUrl_total_passes_unparsed (url : string) :
  (exists cleaned, cleanUrl hostParser url = Returns cleaned) /\
  (parse hostParser url = None ->
   cleanUrl hostParser url = Returns url /\
   findArchiveVersion hostParser fetch url =
   searchArchiveResults fetch (buildArchiveSearchUrl url) url).
Proof.
  split; [apply cleanUrl_total|]. intros P.
  assert (C : cleanUrl hostParser url = Returns url)
    by (rewrite cleanUrl_value, P; reflexivity).
  split; [exact C | exact (findArchiveVersion_value _ _ C)].
Qed.

(** C1, as the program has it: the validity check [isValidUrl] answers
    [false] exactly on the inputs that do not parse or whose scheme is
    neither http nor https, while [cleanUrl] fails on none of them: it
    returns an input that does not parse unchanged, and an input of any
    other scheme as [scheme://host/path]. *)
Theorem invalid_rejected_by_check_only (url : string) :
  (isValidUrl hostParser url = Returns false <->
   parse hostParser url = None \/
   exists u, parse hostParser url = Some u /\
             url_scheme u <> "http" /\ url_scheme u <> "https") /\
  (parse hostParser url = None -> cleanUrl hostParser url = Returns url) /\
  (forall u, parse hostParser url = Some u ->
             cleanUrl hostParser url =
             Returns (url_scheme u ++ "://" ++ host u ++ pathname u)).
Proof.
  rewrite isValidUrl_value, cleanUrl_value.
  destruct (parse hostParser url) as [u|]; repeat split;
    try discriminate; try tauto.
  - intros [= H]. right. exists u. split; [reflexivity|].
    unfold includes, protocol in H. simpl in H.
    split; intros E; rewrite E in H; discriminate.
  - intros [H|(u' & [= <-] & H1 & H2)]; [discriminate|].
    f_equal. unfold includes, protocol. simpl.
    destruct (String.eqb_spec (url_scheme u ++ ":") "http:") as [E|_].
    { exfalso. apply H1.
      change "http:" with ("http" ++ ":") in E.
      now apply append_inv_tail in E. }
    destruct (String.eqb_spec (url_scheme u ++ ":") "https:") as [E|_].
    { exfalso. apply H2.
      change "https:" with ("https" ++ ":") in E.
      now apply append_inv_tail in E. }
    reflexivity.
  - intros u' [= <-]. unfold protocol. now rewrite append_assoc.
Qed.

Lemma handleFindArchive_failed (fetch' : Fetch) (url : string) (tab : nat)
      (reason : string) :
  findArchiveVersion hostParser fetch' url
  = Returns (mkArchiveResponse false None (Some ("Search failed: " ++ reason))) ->
  handleFindArchive hostParser fetch' url (Some (S tab))
  = [(S tab, replyFor (Failed reason))].
Proof. intros A. unfold handleFindArchive. rewrite A. reflexivity. Qed.

(** C2: a 2xx response in which the extractor finds no link gives the
    outcome NotFound, answered to the tab with the text "No archive results
    found".  Whatever else the request does is answered otherwise: when it
    is rejected (network error, timeout), when the status is not 2xx, and
    when the body cannot be read, the reply is that of Failed, with the
    message of the error, respectively the status line, as reason.  The
    reply of Failed is never the reply of NotFound, and on the page the
    same card, titled "Archive Not Found", shows "Search failed: " and
    the reason in the one case and "No archive results found" in the
    other. *)
Theorem not_found_distinct_from_failed
        (url cleaned : string) (tab : nat) (resp : Response) (html : string) :
  cleanUrl hostParser url = Returns cleaned ->
  fetch (buildArchiveSearchUrl cleaned) ARCHIVE_TIMEOUT = Returns resp ->
  ok resp = true ->
  text resp = Returns html ->
  parseArchiveResults html cleaned = None ->
  findArchiveVersion hostParser fetch url =
    Returns (mkArchiveResponse false None (Some "No archive results found")) /\
  handleFindArchive hostParser fetch url (Some (S tab)) = [(S tab, replyFor NotFound)] /\
  (forall fetch' : Fetch,
     let searchUrl := buildArchiveSearchUrl cleaned in
     let sent := handleFindArchive hostParser fetch' url (Some (S tab)) in
     (forall e, fetch' searchUrl ARCHIVE_TIMEOUT = Throws e ->
                sent = [(S tab, replyFor (Failed (message e)))]) /\
     (forall resp', fetch' searchUrl ARCHIVE_TIMEOUT = Returns resp' ->
                    ok resp' = false ->
                    sent = [(S tab, replyFor (Failed ("HTTP " ++ numberToString (status resp')
                                                      ++ ": " ++ statusText resp')))]) /\
     (forall resp' e, fetch' searchUrl ARCHIVE_TIMEOUT = Returns resp' ->
                      ok resp' = true -> text resp' = Throws e ->
                      sent = [(S tab, replyFor (Failed (message e)))])) /\
  forall reason : string,
    replyFor (Failed reason) <> replyFor NotFound /\
    forall ui : JArchiveContent.ArchiveNotificationUI,
      JArchiveContent.container ui <> None ->
      JArchiveContent.container
        (JArchiveContent.handleMessage (replyFor (Failed reason)) ui)
      = Some (JArchiveContent.mkCard "j-archive-error" "Archive Not Found"
                ("Search failed: " ++ reason) false) /\
      JArchiveContent.container
        (JArchiveContent.handleMessage (replyFor NotFound) ui)
      = Some (JArchiveContent.mkCard "j-archive-error" "Archive Not Found"
                "No archive results found" false) /\
      JArchiveContent.container
        (JArchiveContent.handleMessage (replyFor (Failed reason)) ui) <>
      JArchiveContent.container
        (JArchiveContent.handleMessage (replyFor NotFound) ui).
Proof.
  intros C F K T P.
  assert (A : findArchiveVersion hostParser fetch url =
              Returns (mkArchiveResponse false None (Some "No archive results found"))).
  { rewrite (findArchiveVersion_value _ _ C).
    destruct (searchArchiveResults_answer (buildArchiveSearchUrl cleaned) cleaned)
      as (_ & _ & _ & A4).
    rewrite (A4 resp html F K T), P. reflexivity. }
  split; [exact A|]. split; [|split].
  - apply (handleFindArchive_reply _ _ _ NotFound A); [reflexivity | discriminate].
  - intros fetch'. cbv zeta. split; [|split].
    + intros e F'. apply handleFindArchive_failed.
      unfold findArchiveVersion. rewrite C. simpl.
      unfold searchArchiveResults. rewrite F'. reflexivity.
    + intros resp' F' K'. apply handleFindArchive_failed.
      unfold findArchiveVersion. rewrite C. simpl.
      unfold searchArchiveResults. rewrite F'. simpl. rewrite K'. reflexivity.
    + intros resp' e F' K' T'. apply handleFindArchive_failed.
      unfold findArchiveVersion. rewrite C. simpl.
      unfold searchArchiveResults. rewrite F'. simpl. rewrite K'. simpl.
      rewrite T'. reflexivity.
  - intros reason. split; [discriminate|]. intros ui U.
    unfold JArchiveContent.handleMessage, JArchiveContent.updateState,
      JArchiveContent.renderUI. simpl.
    destruct (JArchiveContent.container ui); [|congruence].
    split; [reflexivity|]. split; [reflexivity | discriminate].
Qed.

End Worker.

Import Scenarios.

Lemma findArchiveVersion_one_outcome_witness :
  (exists r,
     findArchiveVersion plainHostParser fetch_timeout "https://a.com/p?q=1" = Returns r /\
     represents r (Failed "signal timed out")) /\
  (exists r,
     findArchiveVersion plainHostParser fetch_http500 "https://a.com/p?q=1" = Returns r /\
     represents r (Failed "HTTP 500: Internal Server Error")) /\
  (exists r,
     findArchiveVersion plainHostParser fetch_body_lost "https://a.com/p?q=1" = Returns r /\
     represents r (Failed "network error")) /\
  (exists r,
     findArchiveVersion plainHostParser fetch_found "https://a.com/p?q=1" = Returns r /\
     represents r (Found "https://archive.ph/abc12")) /\
  (exists r,
     findArchiveVersion plainHostParser fetch_no_result "https://a.com/p?q=1" = Returns r /\
     represents r NotFound).
Proof.
  split; [|split; [|split; [|split]]].
  - destruct (findArchiveVersion_one_outcome plainHostParser fetch_timeout
                "https://a.com/p?q=1") as (r & R & _ & H).
    exists r. split; [exact R|].
    exact (proj1 (H "https://a.com/p" eq_refl) _ eq_refl).
  - destruct (findArchiveVersion_one_outcome plainHostParser fetch_http500
                "https://a.com/p?q=1") as (r & R & _ & H).
    exists r. split; [exact R|].
    exact (proj1 (proj2 (H "https://a.com/p" eq_refl)) _ eq_refl eq_refl).
  - destruct (findArchiveVersion_one_outcome plainHostParser fetch_body_lost
                "https://a.com/p?q=1") as (r & R & _ & H).
    exists r. split; [exact R|].
    exact (proj1 (proj2 (proj2 (H "https://a.com/p" eq_refl))) _ _ eq_refl eq_refl eq_refl).
  - destruct (findArchiveVersion_one_outcome plainHostParser fetch_found
                "https://a.com/p?q=1") as (r & R & _ & H).
    exists r. split; [exact R|].
    exact (proj2 (proj2 (proj2 (H "https://a.com/p" eq_refl))) _ _ eq_refl eq_refl eq_refl).
  - destruct (findArchiveVersion_one_outcome plainHostParser fetch_no_result
                "https://a.com/p?q=1") as (r & R & _ & H).
    exists r. split; [exact R|].
    exact (proj2 (proj2 (proj2 (H "https://a.com/p" eq_refl))) _ _ eq_refl eq_refl eq_refl).
Defined.

(** a status that is not 2xx, on the same lookup *)
Example findArchiveVersion_http500 :
  findArchiveVersion plainHostParser fetch_http500 "https://a.com/p?q=1"
  = Returns (mkArchiveResponse false None
               (Some "Search failed: HTTP 500: Internal Server Error")).
Proof. reflexivity. Qed.

Lemma archive_found_is_link_witness :
  In (1, late_reply) (worker_found old_target (Some 1)) /\
  type late_reply = ARCHIVE_FOUND /\
  exists a, Messages.archiveUrl (payload late_reply) = Some a /\ is_archive_link a.
Proof.
  assert (H : In (1, late_reply) (worker_found old_target (Some 1)))
    by (left; reflexivity).
  split; [exact H|]. split; [reflexivity|].
  exact (archive_found_is_link plainHostParser fetch_found old_target (Some 1)
           1 late_reply H eq_refl).
Defined.

Lemma cleanUrl_total_passes_unparsed_witness :
  parse plainHostParser "not a url" = None /\
  cleanUrl plainHostParser "not a url" = Returns "not a url" /\
  findArchiveVersion plainHostParser fetch_no_result "not a url" =
  searchArchiveResults fetch_no_result (buildArchiveSearchUrl "not a url") "not a url".
Proof.
  split; [reflexivity|].
  exact (proj2 (cleanUrl_total_passes_unparsed plainHostParser fetch_no_result
                  "not a url") eq_refl).
Defined.

Lemma invalid_rejected_by_check_only_witness :
  isValidUrl plainHostParser "ftp://x" = Returns false /\
  cleanUrl plainHostParser "ftp://x" = Returns "ftp://x/" /\
  isValidUrl plainHostParser "not a url" = Returns false /\
  cleanUrl plainHostParser "not a url" = Returns "not a url".
Proof.
  destruct (invalid_rejected_by_check_only plainHostParser "ftp://x") as (V & _ & C).
  destruct (invalid_rejected_by_check_only plainHostParser "not a url") as (V' & C' & _).
  split; [|split; [|split]].
  - apply V. right. eexists. split; [reflexivity|]. split; discriminate.
  - exact (C _ eq_refl).
  - apply V'. left. reflexivity.
  - exact (C' eq_refl).
Defined.

Lemma not_found_distinct_from_failed_witness :
  handleFindArchive plainHostParser fetch_no_result "https://a.com/p?q=1" (Some 1)
    = [(1, replyFor NotFound)] /\
  handleFindArchive plainHostParser fetch_timeout "https://a.com/p?q=1" (Some 1)
    = [(1, replyFor (Failed "signal timed out"))] /\
  handleFindArchive plainHostParser fetch_http500 "https://a.com/p?q=1" (Some 1)
    = [(1, replyFor (Failed "HTTP 500: Internal Server Error"))] /\
  handleFindArchive plainHostParser fetch_body_lost "https://a.com/p?q=1" (Some 1)
    = [(1, replyFor (Failed "network error"))] /\
  replyFor (Failed "signal timed out") <> replyFor NotFound.
Proof.
  destruct (not_found_distinct_from_failed plainHostParser fetch_no_result
              "https://a.com/p?q=1" "https://a.com/p" 0
              (mkResponse 200 "OK" (Returns "<html>No results</html>"))
              "<html>No results</html>"
              eq_refl eq_refl eq_refl eq_refl eq_refl) as (_ & N & F & D).
  split; [exact N|]. split; [|split; [|split]].
  - exact (proj1 (F fetch_timeout) _ eq_refl).
  - exact (proj1 (proj2 (F fetch_http500)) _ eq_refl eq_refl).
  - exact (proj2 (proj2 (F fetch_body_lost)) _ _ eq_refl eq_refl eq_refl).
  - exact (proj1 (D "signal timed out")).
Defined.

(** the query of the scenario of the design document *)
Example search_url_of_story :
  buildArchiveSearchUrl "https://news.example.com/story"
  = "https://archive.ph/https%3A%2F%2Fnews.example.com%2Fstory".
Proof. reflexivity. Qed.

End WorkerFacts.

(** ** The notification UI of the content script *)

Module ContentFacts.
Import JArchiveContent Scenarios.

Lemma state_renderUI (u : ArchiveNotificationUI) : state (renderUI u) = state u.
Proof. unfold renderUI. now destruct (container u). Qed.

Lemma currentUrl_renderUI (u : ArchiveNotificationUI) :
  currentUrl (renderUI u) = currentUrl u.
Proof. unfold renderUI. now destruct (container u). Qed.

(** C3, what the program does instead: a message ARCHIVE_FOUND is applied
    whatever the UI is waiting for.  The state becomes "found" with the URL
    of the message, and [currentUrl] is neither read nor changed. *)
Theorem found_applied_whatever_target (message : ExtensionMessage)
        (u : ArchiveNotificationUI) :
  type message = ARCHIVE_FOUND ->
  state (handleMessage message u)
    = mkUIState false true (Messages.archiveUrl (payload message)) None /\
  currentUrl (handleMessage message u) = currentUrl u.
Proof.
  intros T. unfold handleMessage, updateState. rewrite T.
  now rewrite state_renderUI, currentUrl_renderUI.
Qed.

Lemma found_applied_whatever_target_witness :
  type late_reply = ARCHIVE_FOUND /\
  state (handleMessage late_reply (init (Some new_target) new_ArchiveNotificationUI))
    = mkUIState false true (Some "https://archive.ph/abc12") None /\
  currentUrl (handleMessage late_reply (init (Some new_target) new_ArchiveNotificationUI))
    = Some new_target.
Proof.
  split; [reflexivity|].
  exact (found_applied_whatever_target late_reply
           (init (Some new_target) new_ArchiveNotificationUI) eq_refl).
Defined.

(** C3 fails: the tab was triggered for [old_target] and again for
    [new_target], so it is searching and expects [new_target]; the reply to
    the lookup of [old_target] arrives, and the tab goes to "found". *)
Lemma stale_found_transitions :
  worker_found old_target (Some 1) = [(1, late_reply)] /\
  type late_reply = ARCHIVE_FOUND /\
  exists searching,
    ui retriggered_tab = Some searching /\
    isLoading (state searching) = true /\
    currentUrl searching = Some new_target /\
    new_target <> old_target /\
    exists after,
      ui (onMessage late_reply retriggered_tab) = Some after /\
      state after = mkUIState false true (Some "https://archive.ph/abc12") None /\
      state after <> state searching.
Proof.
  split; [reflexivity|]. split; [reflexivity|].
  eexists. split; [reflexivity|]. split; [reflexivity|]. split; [reflexivity|].
  split; [discriminate|].
  eexists. split; [reflexivity|]. split; [reflexivity | discriminate].
Qed.

End ContentFacts.

(** ** The URL parser *)

Module UrlFacts.
Import Url UrlSpec.

(** Case analysis over the 256 characters. *)
Ltac by_ascii c :=
  destruct c as [[] [] [] [] [] [] [] []]; vm_compute;
  try reflexivity; try discriminate; try (intuition discriminate).

Lemma hostChar_authChar (c : ascii) : hostChar c = true -> authChar c = true.
Proof. by_ascii c. Qed.

Lemma hostChar_not_bracket (c : ascii) :
  hostChar c = true -> oneOf ":[]" c = false.
Proof. by_ascii c. Qed.

Lemma hexColon_authChar (c : ascii) :
  isHexDigit c || Ascii.eqb c ":" = true -> authChar c = true.
Proof. by_ascii c. Qed.

Lemma hexColon_not_bracket (c : ascii) :
  isHexDigit c || Ascii.eqb c ":" = true -> oneOf "[]" c = false.
Proof. by_ascii c. Qed.

Lemma digit_authChar (c : ascii) : isDigit c = true -> authChar c = true.
Proof. by_ascii c. Qed.

Lemma authChar_visible (c : ascii) : authChar c = true -> (32 <? code c)%nat = true.
Proof. by_ascii c. Qed.

Lemma authChar_not_end (c : ascii) : authChar c = true -> oneOf "/?#\@" c = false.
Proof. by_ascii c. Qed.

Lemma pathChar_visible (c : ascii) : pathChar c = true -> (32 <? code c)%nat = true.
Proof. by_ascii c. Qed.

Lemma pathChar_kept (c : ascii) :
  pathChar c = true -> pathSet c = false /\ oneOf "/\?#" c = false.
Proof. by_ascii c. Qed.

Lemma visible_preprocess (c : ascii) :
  (32 <? code c)%nat = true -> isC0OrSpace c = false /\ isTabOrNewline c = false.
Proof. by_ascii c. Qed.

Lemma percentEncodeChar_pathChar (c : ascii) :
  oneOf "/\" c = false -> all pathChar (percentEncodeChar pathSet c) = true.
Proof. by_ascii c. Qed.

(** *** Cleaning the input *)

Lemma dropWhileEnd_none (p : ascii -> bool) (s : string) :
  all (fun c => negb (p c)) s = true -> dropWhileEnd p s = s.
Proof.
  induction s as [|c s IH]; simpl; [reflexivity|].
  rewrite andb_true_iff, negb_true_iff. intros [C H].
  rewrite (IH H), C. now destruct s.
Qed.

Lemma filterS_all (p : ascii -> bool) (s : string) :
  all p s = true -> filterS p s = s.
Proof.
  induction s as [|c s IH]; simpl; [reflexivity|].
  rewrite andb_true_iff. intros [-> H]. now rewrite IH.
Qed.


Lemma preprocess_visible (s : string) : all visible s = true -> preprocess s = s.
Proof.
  intros H. unfold preprocess.
  assert (D : dropWhile isC0OrSpace s = s).
  { destruct s as [|c s]; simpl in *; [reflexivity|].
    apply andb_true_iff in H as [H _].
    now rewrite (proj1 (visible_preprocess c H)). }
  rewrite D, dropWhileEnd_none, filterS_all; [reflexivity | |].
  - apply (all_impl visible); [|exact H].
    intros c V. now rewrite (proj2 (visible_preprocess c V)).
  - apply (all_impl visible); [|exact H].
    intros c V. now rewrite (proj1 (visible_preprocess c V)).
Qed.

(** *** The path state on a special scheme other than [file] *)

Section PathState.

Variable scheme : string.
Hypothesis special : isSpecial scheme = true.
Hypothesis not_file : (scheme =? "file") = false.

Lemma shorten_removelast (path : list string) : shorten scheme path = removelast path.
Proof.
  unfold shorten. rewrite not_file. simpl.
  destruct path as [|p [|q path]]; reflexivity.
Qed.

Lemma cleanPath_removelast (path : list string) :
  cleanPath path -> cleanPath (removelast path).
Proof.
  unfold cleanPath. induction 1 as [|seg path H _ IH]; [constructor|].
  simpl. destruct path; [constructor|]. constructor; assumption.
Qed.

Lemma cleanPath_snoc (path : list string) (seg : string) :
  cleanPath path -> cleanSegment seg = true -> cleanPath (path ++ [seg]).
Proof.
  intros P S. apply Forall_app. split; [exact P | repeat constructor; exact S].
Qed.

Lemma endSegment_append (buffer : string) (slash : bool) (path : list string) :
  isDoubleDot buffer = false -> isSingleDot buffer = false ->
  endSegment scheme buffer slash path = (path ++ [buffer])%list.
Proof.
  intros D S. unfold endSegment. rewrite D, S, not_file. simpl.
  destruct path as [|p path]; [|reflexivity].
  destruct buffer as [|a [|b [|c buffer]]]; reflexivity.
Qed.

Lemma endSegment_clean (buffer : string) (slash : bool) (path : list string) :
  all pathChar buffer = true -> cleanPath path ->
  cleanPath (endSegment scheme buffer slash path).
Proof.
  intros B P.
  destruct (isDoubleDot buffer) eqn:D.
  { unfold endSegment. rewrite D, shorten_removelast.
    destruct slash; [|apply cleanPath_snoc; [|reflexivity]];
      now apply cleanPath_removelast. }
  destruct (isSingleDot buffer) eqn:S.
  { unfold endSegment. rewrite D, S.
    destruct slash; [exact P | now apply cleanPath_snoc]. }
  rewrite endSegment_append by assumption.
  apply cleanPath_snoc; [exact P|].
  unfold cleanSegment. now rewrite B, D, S.
Qed.

Lemma endSegment_last_nonempty (buffer : string) (path : list string) :
  endSegment scheme buffer false path <> [].
Proof.
  destruct (isDoubleDot buffer) eqn:D.
  { unfold endSegment. rewrite D. now destruct (shorten scheme path). }
  destruct (isSingleDot buffer) eqn:S.
  { unfold endSegment. rewrite D, S. now destruct path. }
  rewrite endSegment_append by assumption. now destruct path.
Qed.

Lemma path_state_clean (s buffer : string) (path path' : list string) (rest : string) :
  path_state scheme s buffer path = (path', rest) ->
  all pathChar buffer = true -> cleanPath path ->
  cleanPath path' /\ path' <> [].
Proof.
  revert buffer path. induction s as [|c s IH]; intros buffer path; simpl.
  - intros [= <- <-] B P. split;
      [now apply endSegment_clean | apply endSegment_last_nonempty].
  - unfold isPathSeparator. rewrite special. simpl.
    destruct (Ascii.eqb c "/" || Ascii.eqb c "\") eqn:Sep.
    + intros H B P. apply (IH _ _ H); [reflexivity | now apply endSegment_clean].
    + destruct (oneOf "?#" c).
      * intros [= <- <-] B P. split;
          [now apply endSegment_clean | apply endSegment_last_nonempty].
      * intros H B P. apply (IH _ _ H); [|exact P].
        rewrite all_append, B. simpl.
        apply percentEncodeChar_pathChar. unfold oneOf. simpl.
        now rewrite orb_false_r.
Qed.

(** Reading back a path of clean segments gives the same segments. *)
Lemma path_state_segment (seg t buffer : string) (path : list string) :
  all pathChar seg = true ->
  path_state scheme (seg ++ t) buffer path = path_state scheme t (buffer ++ seg) path.
Proof.
  revert buffer. induction seg as [|c seg IH]; intros buffer; simpl.
  - now rewrite append_empty_r.
  - rewrite andb_true_iff. intros [C S].
    destruct (pathChar_kept c C) as [K N].
    assert (Sep : isPathSeparator scheme c = false).
    { unfold isPathSeparator. unfold oneOf in N. simpl in N.
      destruct (Ascii.eqb c "/"); [discriminate|].
      destruct (Ascii.eqb c "\"); [discriminate|]. now rewrite andb_false_r. }
    assert (Q : oneOf "?#" c = false).
    { unfold oneOf in *. simpl in *.
      destruct (Ascii.eqb c "/"); [discriminate|].
      destruct (Ascii.eqb c "\"); [discriminate|]. exact N. }
    rewrite Sep, Q. unfold percentEncodeChar. rewrite K.
    rewrite (IH _ S). now rewrite append_assoc.
Qed.

Lemma path_state_serialized (seg : string) (segments path : list string) :
  cleanPath (seg :: segments) ->
  path_state scheme (seg ++ serializeSegments segments) "" path
  = ((path ++ seg :: segments)%list, "").
Proof.
  revert seg path. induction segments as [|seg' segments IH]; intros seg path P.
  - inversion P as [|? ? S _]; subst. unfold cleanSegment in S.
    apply andb_true_iff in S as [S D2]. apply andb_true_iff in S as [S D1].
    apply negb_true_iff in D1, D2.
    simpl serializeSegments. rewrite path_state_segment by exact S. simpl.
    now rewrite endSegment_append.
  - inversion P as [|? ? S P']; subst. unfold cleanSegment in S.
    apply andb_true_iff in S as [S D2]. apply andb_true_iff in S as [S D1].
    apply negb_true_iff in D1, D2.
    simpl serializeSegments. rewrite path_state_segment by exact S.
    simpl. unfold isPathSeparator. simpl.
    rewrite endSegment_append by assumption.
    rewrite (IH _ _ P'). now rewrite <- app_assoc.
Qed.

End PathState.

(** *** Hosts and ports *)

Lemma bracketTail_authChar (t : string) : bracketTail t = true -> all authChar t = true.
Proof.
  induction t as [|c t IH]; [discriminate|].
  destruct t as [|d t].
  - simpl. intros H. apply Ascii.eqb_eq in H as ->. reflexivity.
  - change (bracketTail (String c (String d t)))
      with ((isHexDigit c || Ascii.eqb c ":") && bracketTail (String d t)).
    rewrite andb_true_iff. intros [C T].
    change (all authChar (String c (String d t)))
      with (authChar c && all authChar (String d t)).
    now rewrite (hexColon_authChar c C), IH.
Qed.

Lemma hostShape_authChar (h : string) : hostShape h = true -> all authChar h = true.
Proof.
  unfold hostShape. rewrite orb_true_iff. intros [H|H].
  - apply (all_impl hostChar); [exact hostChar_authChar | exact H].
  - destruct h as [|c t]; [discriminate|].
    apply andb_true_iff in H as [C T]. apply Ascii.eqb_eq in C as ->.
    simpl. now apply bracketTail_authChar.
Qed.

Lemma host_state_plain (h t : string) (inside : bool) :
  all hostChar h = true ->
  host_state inside (h ++ t) =
  let '(h', p) := host_state inside t in (h ++ h', p).
Proof.
  induction h as [|c h IH]; simpl.
  - intros _. now destruct (host_state inside t).
  - rewrite andb_true_iff. intros [C H].
    pose proof (hostChar_not_bracket c C) as N. unfold oneOf in N. simpl in N.
    destruct (Ascii.eqb c ":"); [discriminate|].
    destruct (Ascii.eqb c "["); [discriminate|].
    destruct (Ascii.eqb c "]"); [discriminate|]. simpl.
    rewrite (IH H). now destruct (host_state inside t).
Qed.

Lemma host_state_bracketTail (b t : string) :
  bracketTail b = true ->
  host_state true (b ++ t) =
  let '(h', p) := host_state false t in (b ++ h', p).
Proof.
  induction b as [|c b IH]; [discriminate|].
  destruct b as [|d b].
  - simpl. intros H. apply Ascii.eqb_eq in H as ->. simpl.
    now destruct (host_state false t).
  - change (bracketTail (String c (String d b)))
      with ((isHexDigit c || Ascii.eqb c ":") && bracketTail (String d b)).
    rewrite andb_true_iff. intros [C T].
    pose proof (hexColon_not_bracket c C) as N. unfold oneOf in N. simpl in N.
    change (host_state true (String c (String d b) ++ t))
      with (if Ascii.eqb c ":" && negb true then ("", Some (String d b ++ t))
            else let inside := if Ascii.eqb c "[" then true
                               else if Ascii.eqb c "]" then false else true in
                 let '(h, p) := host_state inside (String d b ++ t) in
                 (String c h, p)).
    rewrite andb_false_r.
    destruct (Ascii.eqb c "["); [discriminate|].
    destruct (Ascii.eqb c "]"); [discriminate|]. cbv zeta.
    rewrite (IH T). now destruct (host_state false t).
Qed.

Lemma host_state_shape (h t : string) :
  hostShape h = true ->
  host_state false (h ++ t) =
  let '(h', p) := host_state false t in (h ++ h', p).
Proof.
  unfold hostShape. rewrite orb_true_iff. intros [H|H].
  - now apply host_state_plain.
  - destruct h as [|c b]; [discriminate|].
    apply andb_true_iff in H as [C T]. apply Ascii.eqb_eq in C as ->.
    simpl. rewrite (host_state_bracketTail _ _ T).
    now destruct (host_state false t).
Qed.

Lemma splitLastAt_authChar (a : string) :
  all authChar a = true -> splitLastAt a = (None, a).
Proof.
  induction a as [|c a IH]; simpl; [reflexivity|].
  rewrite andb_true_iff. intros [C A]. rewrite (IH A).
  pose proof (authChar_not_end c C) as N. unfold oneOf in N. simpl in N.
  destruct (Ascii.eqb c "/"); [discriminate|].
  destruct (Ascii.eqb c "?"); [discriminate|].
  destruct (Ascii.eqb c "#"); [discriminate|].
  destruct (Ascii.eqb c "\"); [discriminate|].
  destruct (Ascii.eqb c "@"); [discriminate | reflexivity].
Qed.

Lemma authChar_inAuthority (scheme : string) (a : string) :
  all authChar a = true ->
  all (fun c => negb (isAuthorityEnd scheme c)) a = true.
Proof.
  apply all_impl. intros c C.
  pose proof (authChar_not_end c C) as N. unfold isAuthorityEnd, oneOf in *.
  simpl in *.
  destruct (Ascii.eqb c "/"); [discriminate|].
  destruct (Ascii.eqb c "?"); [discriminate|].
  destruct (Ascii.eqb c "#"); [discriminate|].
  destruct (Ascii.eqb c "\"); [discriminate|].
  now rewrite andb_false_r.
Qed.

Lemma string_of_uint_digits (d : Decimal.uint) :
  all isDigit (NilEmpty.string_of_uint d) = true.
Proof. induction d; simpl; auto. Qed.

Lemma decimal_digits (p : N) : all isDigit (decimal p) = true.
Proof. apply string_of_uint_digits. Qed.

Lemma decimal_nonempty (p : N) : (decimal p =? "") = false.
Proof.
  unfold decimal. destruct p as [|q]; [reflexivity|]. simpl.
  pose proof (DecimalPos.Unsigned.to_uint_nonnil q) as N.
  destruct (Pos.to_uint q); [congruence | reflexivity ..].
Qed.

Lemma port_state_some (scheme digits : string) (p : N) :
  port_state scheme digits = Some (Some p) ->
  (65535 <? p)%N = false /\ isDefaultPort scheme p = false.
Proof.
  unfold port_state.
  destruct (NilEmpty.uint_of_string digits) as [d|]; [|discriminate].
  destruct (digits =? ""); [discriminate|].
  destruct (65535 <? N.of_uint d)%N eqn:B; [discriminate|].
  destruct (isDefaultPort scheme (N.of_uint d)) eqn:D; [discriminate|].
  intros [= <-]. auto.
Qed.

Lemma port_state_decimal (scheme : string) (p : N) :
  (65535 <? p)%N = false -> isDefaultPort scheme p = false ->
  port_state scheme (decimal p) = Some (Some p).
Proof.
  intros B D. unfold port_state. rewrite decimal_nonempty.
  unfold decimal. rewrite NilEmpty.usu, DecimalN.Unsigned.of_to, B.
  now rewrite D.
Qed.

(** *** The shape of a parsed http(s) URL *)

Section Normalizer.

Variable hostParser : bool -> string -> option string.

Lemma fileURL_scheme (h : string) (parsed : list string * string) :
  url_scheme (fileURL h parsed) = "file".
Proof.
  unfold fileURL. destruct parsed as [path rest].
  now destruct (query_fragment_state "file" rest).
Qed.

Lemma file_state_scheme (s : string) (u : URL) :
  file_state hostParser s = Some u -> url_scheme u = "file".
Proof.
  assert (F : forall h parsed, Some (fileURL h parsed) = Some u -> url_scheme u = "file").
  { intros h parsed [= <-]. apply fileURL_scheme. }
  unfold file_state, file_host_state.
  repeat match goal with
         | |- Some (fileURL _ _) = Some u -> _ => apply F
         | |- None = Some u -> _ => discriminate
         | |- context [match ?x with _ => _ end] => destruct x
         end.
Qed.

Lemma host_port_state_special (scheme hostport h : string) (port : option N) :
  isSpecial scheme = true ->
  host_port_state hostParser scheme hostport = Some (h, port) ->
  (exists buffer, hostParser false buffer = Some h) /\
  (port = None \/ exists digits, port_state scheme digits = Some port).
Proof.
  intros S. unfold host_port_state. rewrite S. simpl negb.
  destruct (host_state false hostport) as [buffer [digits|]].
  - destruct (buffer =? ""); [discriminate|].
    destruct (hostParser false buffer) as [h'|] eqn:H; [|discriminate].
    destruct (port_state scheme digits) as [port'|] eqn:P; [|discriminate].
    intros [= <- <-]. split; [now exists buffer | right; now exists digits].
  - destruct (true && (buffer =? "")); [discriminate|].
    destruct (hostParser false buffer) as [h'|] eqn:H; [|discriminate].
    intros [= <- <-]. split; [now exists buffer | now left].
Qed.

Lemma authority_state_inv (scheme s : string) (u : URL) :
  authority_state hostParser scheme s = Some u ->
  exists hostport rest h rest',
    host_port_state hostParser scheme hostport = Some (h, url_port u) /\
    path_start_state scheme rest = (match url_path u with
                                    | ListPath path => path
                                    | OpaquePath _ => []
                                    end, rest') /\
    url_scheme u = scheme /\ url_host u = Some h /\
    exists path, url_path u = ListPath path.
Proof.
  unfold authority_state.
  destruct (splitLastAt _) as [userinfo hostport].
  destruct (match userinfo with Some _ => hostport =? "" | None => false end);
    [discriminate|].
  destruct (host_port_state hostParser scheme hostport) as [[h port]|] eqn:H;
    [|discriminate].
  destruct (credentials userinfo) as [username password].
  destruct (path_start_state scheme _) as [path rest'] eqn:P.
  destruct (query_fragment_state scheme rest') as [query fragment].
  intros [= <-]. simpl. eauto 10.
Qed.

Lemma parse_special (url : string) (u : URL) :
  parse hostParser url = Some u ->
  isSpecial (url_scheme u) = true ->
  (url_scheme u =? "file") = false ->
  exists s, authority_state hostParser (url_scheme u) s = Some u.
Proof.
  unfold parse.
  destruct (scheme_state (preprocess url)) as [[scheme rest]|]; [|discriminate].
  destruct (scheme =? "file") eqn:F.
  { intros H _ N. rewrite (file_state_scheme _ _ H) in N. discriminate. }
  destruct (isSpecial scheme) eqn:S.
  { intros H _ _. destruct (authority_state_inv _ _ _ H) as (_ & _ & _ & _ & _ & _ & E & _).
    rewrite E. eauto. }
  assert (K : forall v, url_scheme v = scheme -> Some v = Some u ->
                        isSpecial (url_scheme u) = true ->
                        (url_scheme u =? "file") = false ->
                        exists s, authority_state hostParser (url_scheme u) s = Some u).
  { intros v E [= <-] Sp _. rewrite E, S in Sp. discriminate. }
  repeat match goal with
         | |- Some ?v = Some u -> _ => apply (K v); reflexivity
         | |- authority_state _ _ _ = Some u -> _ =>
             let H := fresh in
             intros H ? ?;
             destruct (authority_state_inv _ _ _ H) as (_ & _ & _ & _ & _ & _ & E & _);
             rewrite E; eauto
         | |- context [match ?x with _ => _ end] => destruct x
         | |- context [let '(_, _) := ?x in _] => destruct x
         end.
Qed.

Lemma isHttp_special (scheme : string) :
  isHttp scheme -> isSpecial scheme = true /\ (scheme =? "file") = false.
Proof. intros [-> | ->]; split; reflexivity. Qed.

Lemma path_start_state_clean (scheme s : string) (path : list string) (rest : string) :
  isSpecial scheme = true -> (scheme =? "file") = false ->
  path_start_state scheme s = (path, rest) ->
  cleanPath path /\ path <> [].
Proof.
  intros S F. unfold path_start_state. rewrite S.
  assert (P : forall t, path_state scheme t "" [] = (path, rest) ->
                        cleanPath path /\ path <> []).
  { intros t H. apply (path_state_clean scheme S F _ _ _ _ _ H);
      [reflexivity | constructor]. }
  destruct s as [|c s]; [apply P|]. destruct (oneOf "/\" c); apply P.
Qed.

(** A parsed http(s) URL: its host was given by the host parser, its port
    is no default port, its path is a non-empty list of clean segments. *)
Lemma parse_http (url : string) (u : URL) :
  parse hostParser url = Some u -> isHttp (url_scheme u) ->
  exists buffer h path,
    hostParser false buffer = Some h /\
    url_host u = Some h /\
    portKept (url_scheme u) (url_port u) /\
    url_path u = ListPath path /\ cleanPath path /\ path <> [].
Proof.
  intros P Http. destruct (isHttp_special _ Http) as [S F].
  destruct (parse_special _ _ P S F) as [s A].
  destruct (authority_state_inv _ _ _ A)
    as (hostport & rest & h & rest' & HP & PS & _ & H & path & Pa).
  rewrite Pa in PS.
  destruct (host_port_state_special _ _ _ _ S HP) as [[buffer B] Po].
  destruct (path_start_state_clean _ _ _ _ S F PS) as [C N].
  exists buffer, h, path. repeat split; auto.
  unfold portKept. destruct Po as [-> | [digits D]]; [exact I|].
  destruct (url_port u) as [p|]; [|exact I].
  exact (port_state_some _ _ _ D).
Qed.

Lemma serializeSegments_chars (q : ascii -> bool) (path : list string) :
  q "/"%char = true -> (forall c, pathChar c = true -> q c = true) ->
  cleanPath path -> all q (serializeSegments path) = true.
Proof.
  intros Q I. induction 1 as [|seg path S _ IH]; simpl; [reflexivity|].
  rewrite Q, all_append, IH, andb_true_r. simpl.
  unfold cleanSegment in S. apply andb_true_iff in S as [S _].
  apply andb_true_iff in S as [S _]. exact (all_impl _ _ _ I S).
Qed.

Lemma hostText_authChar (h : string) (port : option N) :
  hostShape h = true -> all authChar (hostText h port) = true.
Proof.
  intros H. apply hostShape_authChar in H. destruct port as [p|]; [|exact H].
  simpl. rewrite all_append, H. simpl.
  exact (all_impl _ _ _ digit_authChar (decimal_digits p)).
Qed.

Section Reparse.

Hypothesis host_shape :
  forall input h, hostParser false input = Some h -> hostShape h = true.

Lemma hostText_head (h : string) (port : option N) (t : string) :
  hostShape h = true -> h <> "" ->
  exists c r, hostText h port ++ t = String c r /\ authChar c = true.
Proof.
  intros H N. apply hostShape_authChar in H.
  destruct h as [|c h]; [congruence|]. simpl in H.
  apply andb_true_iff in H as [C _].
  exists c. destruct port; simpl; eauto.
Qed.

Lemma host_port_state_hostText (scheme h : string) (port : option N) :
  isSpecial scheme = true ->
  hostParser false h = Some h -> h <> "" -> portKept scheme port ->
  host_port_state hostParser scheme (hostText h port) = Some (h, port).
Proof.
  intros S H N P. pose proof (host_shape _ _ H) as Sh.
  assert (E : (h =? "") = false) by now apply String.eqb_neq.
  unfold host_port_state. rewrite S. simpl negb.
  destruct port as [p|]; simpl hostText.
  - rewrite (host_state_shape _ _ Sh). simpl.
    rewrite append_empty_r, E, H. destruct P as [B D].
    now rewrite (port_state_decimal _ _ B D).
  - rewrite <- (append_empty_r h) at 1.
    rewrite (host_state_shape _ _ Sh). simpl.
    now rewrite append_empty_r, E, H.
Qed.

Lemma authority_state_serialized (scheme h : string) (port : option N)
      (path : list string) :
  isSpecial scheme = true -> (scheme =? "file") = false ->
  hostParser false h = Some h -> h <> "" -> portKept scheme port ->
  cleanPath path -> path <> [] ->
  authority_state hostParser scheme (hostText h port ++ serializeSegments path)
  = Some (mkURL scheme "" "" (Some h) port (ListPath path) None None).
Proof.
  intros S F H N P C Ne. pose proof (host_shape _ _ H) as Sh.
  destruct path as [|seg segments]; [congruence|].
  pose proof (authChar_inAuthority scheme _ (hostText_authChar h port Sh)) as A.
  unfold authority_state.
  rewrite (takeWhile_stop _ _ _ A), (dropWhile_stop _ _ _ A);
    try (simpl; unfold isAuthorityEnd; reflexivity).
  rewrite (splitLastAt_authChar _ (hostText_authChar h port Sh)).
  rewrite (host_port_state_hostText _ _ _ S H N P). simpl credentials. cbv iota.
  simpl serializeSegments. unfold path_start_state. simpl append. rewrite S.
  change (oneOf "/\" "/") with true. cbv iota.
  rewrite (path_state_serialized scheme F _ _ _ C). reflexivity.
Qed.

Lemma parse_serialized (scheme h : string) (port : option N) (path : list string) :
  isHttp scheme ->
  hostParser false h = Some h -> h <> "" -> portKept scheme port ->
  cleanPath path -> path <> [] ->
  parse hostParser (scheme ++ "://" ++ hostText h port ++ serializeSegments path)
  = Some (mkURL scheme "" "" (Some h) port (ListPath path) None None).
Proof.
  intros Http H N P C Ne. pose proof (host_shape _ _ H) as Sh.
  destruct (isHttp_special _ Http) as [S F].
  pose proof (authority_state_serialized _ _ _ _ S F H N P C Ne) as A.
  destruct (hostText_head h port (serializeSegments path) Sh N) as (c & r & E & Ac).
  assert (V : all visible (hostText h port ++ serializeSegments path) = true).
  { rewrite all_append. apply andb_true_iff. split.
    - exact (all_impl _ _ _ authChar_visible (hostText_authChar h port Sh)).
    - apply serializeSegments_chars; [reflexivity | exact pathChar_visible | exact C]. }
  assert (Sl : oneOf "/\" c = false).
  { pose proof (authChar_not_end c Ac) as X. unfold oneOf in *. simpl in *.
    destruct (Ascii.eqb c "/"); [discriminate|].
    destruct (Ascii.eqb c "?"); [discriminate|].
    destruct (Ascii.eqb c "#"); [discriminate|].
    destruct (Ascii.eqb c "\"); [discriminate | reflexivity]. }
  unfold parse. rewrite preprocess_visible.
  2: { destruct Http as [-> | ->]; simpl; exact V. }
  rewrite E in *.
  destruct Http as [-> | ->]; simpl; rewrite Sl; exact A.
Qed.

End Reparse.

End Normalizer.

End UrlFacts.

(** ** The URL normalizer ([cleanUrl]) *)

Module NormalizerFacts.
Import Url UrlSpec UrlFacts JArchiveBackground LookupSpec WorkerFacts.

(** *** The host parser for plain names meets what is asked of a host parser *)

Lemma toLower_hostChar (c : ascii) :
  isForbiddenDomainCodePoint c = false ->
  hostChar (toLower c) = true /\
  isForbiddenDomainCodePoint (toLower c) = false /\
  toLower (toLower c) = toLower c.
Proof. by_ascii c. Qed.

Lemma plain_domain (input h : string) :
  plainHostParser false input = Some h ->
  h = toLowerCase input /\ input <> "" /\
  all (fun c => negb (isForbiddenDomainCodePoint c)) input = true.
Proof.
  unfold plainHostParser.
  destruct (input =? "") eqn:E; [discriminate|]. simpl.
  destruct (any isForbiddenDomainCodePoint input) eqn:A; [discriminate|].
  intros [= <-]. split; [reflexivity|]. split; [now apply String.eqb_neq|].
  clear E. induction input as [|c s IH]; [reflexivity|]. simpl in *.
  apply orb_false_iff in A as [-> A]. now rewrite IH.
Qed.

Lemma plain_host_shape (input h : string) :
  plainHostParser false input = Some h -> hostShape h = true.
Proof.
  intros H. destruct (plain_domain _ _ H) as (-> & _ & A).
  unfold hostShape. apply orb_true_iff. left. unfold toLowerCase.
  clear H. induction input as [|c s IH]; [reflexivity|]. simpl in *.
  apply andb_true_iff in A as [C A]. apply negb_true_iff in C.
  now rewrite (proj1 (toLower_hostChar c C)), IH.
Qed.

Lemma plain_host_stable (input h : string) :
  plainHostParser false input = Some h -> plainHostParser false h = Some h.
Proof.
  intros H. destruct (plain_domain _ _ H) as (-> & N & A).
  unfold plainHostParser.
  assert (E : (toLowerCase input =? "") = false).
  { apply String.eqb_neq. destruct input; [congruence | discriminate]. }
  rewrite E. simpl. clear H N E. unfold toLowerCase.
  assert (K : any isForbiddenDomainCodePoint (mapS toLower input) = false /\
              mapS toLower (mapS toLower input) = mapS toLower input).
  { induction input as [|c s IH]; [split; reflexivity|]. simpl in *.
    apply andb_true_iff in A as [C A]. apply negb_true_iff in C.
    destruct (toLower_hostChar c C) as (_ & F & L). destruct (IH A) as [IH1 IH2].
    now rewrite F, L, IH1, IH2. }
  destruct K as [-> ->]. reflexivity.
Qed.

Lemma plain_host_nonempty (input h : string) :
  plainHostParser false input = Some h -> h <> "".
Proof.
  intros H. destruct (plain_domain _ _ H) as (-> & N & _).
  destruct input; [congruence | discriminate].
Qed.

(** *** What follows the first [?] or [#] does not reach the result *)

Lemma mark_class (c : ascii) :
  oneOf "?#" c = true ->
  visible c = true /\ isSchemeChar c = false /\ oneOf "/\" c = false /\
  Ascii.eqb c ":" = false /\ Ascii.eqb c "/" = false /\ Ascii.eqb c "\" = false /\
  oneOf "/?#" c = true.
Proof. by_ascii c. Qed.

Lemma dropWhileEnd_visible (b : string) (c : ascii) (t : string) :
  all visible b = true -> visible c = true ->
  dropWhileEnd isC0OrSpace (b ++ String c t)
  = b ++ String c (dropWhileEnd isC0OrSpace t).
Proof.
  intros B C.
  assert (H : forall d s, visible d = true ->
                dropWhileEnd isC0OrSpace (String d s)
                = String d (dropWhileEnd isC0OrSpace s)).
  { intros d s D. simpl. rewrite (proj1 (visible_preprocess d D)).
    now destruct (dropWhileEnd isC0OrSpace s). }
  induction b as [|d b IH]; [apply H; exact C|].
  simpl in B. apply andb_true_iff in B as [D B].
  change (String d b ++ String c t) with (String d (b ++ String c t)).
  rewrite (H _ _ D), (IH B). reflexivity.
Qed.

Lemma preprocess_append (b : string) (c : ascii) (t : string) :
  all visible b = true -> visible c = true ->
  exists t', preprocess (b ++ String c t) = b ++ String c t'.
Proof.
  intros B C.
  exists (filterS (fun c => negb (isTabOrNewline c)) (dropWhileEnd isC0OrSpace t)).
  unfold preprocess.
  assert (D : dropWhile isC0OrSpace (b ++ String c t) = b ++ String c t).
  { destruct b as [|d b]; simpl in *.
    - now rewrite (proj1 (visible_preprocess c C)).
    - apply andb_true_iff in B as [D _].
      now rewrite (proj1 (visible_preprocess d D)). }
  rewrite D, (dropWhileEnd_visible _ _ _ B C). clear D.
  induction b as [|d b IH]; simpl in *.
  - now rewrite (proj2 (visible_preprocess c C)).
  - apply andb_true_iff in B as [D B].
    rewrite (proj2 (visible_preprocess d D)). simpl. now rewrite (IH B).
Qed.

Lemma takeWhile_append_rest (p : ascii -> bool) (s t : string) (d : ascii) (r : string) :
  dropWhile p s = String d r ->
  takeWhile p (s ++ t) = takeWhile p s /\ dropWhile p (s ++ t) = String d (r ++ t).
Proof.
  induction s as [|c s IH]; [discriminate|]. simpl.
  destruct (p c).
  - intros H. destruct (IH H) as [-> ->]. auto.
  - intros [= -> ->]. auto.
Qed.

Lemma span_append_stop (p : ascii -> bool) (s t : string) :
  stops p t ->
  takeWhile p (s ++ t) = takeWhile p s /\
  dropWhile p (s ++ t) = dropWhile p s ++ t.
Proof.
  intros T. induction s as [|c s IH]; simpl.
  - destruct t as [|d t]; simpl in *; [auto | now rewrite T].
  - destruct (p c); [|auto]. destruct IH as [-> ->]. auto.
Qed.

Lemma any_dropWhile (q p : ascii -> bool) (s : string) :
  any q s = false -> any q (dropWhile p s) = false.
Proof.
  induction s as [|c s IH]; simpl; [auto|].
  intros H. destruct (p c); [|exact H].
  apply orb_false_iff in H as [_ H]. auto.
Qed.

Lemma any_tail (q : ascii -> bool) (c : ascii) (s : string) :
  any q (String c s) = false -> any q s = false.
Proof. simpl. intros H. now apply orb_false_iff in H as [_ H]. Qed.

Lemma scheme_state_append (s scheme rest : string) (c : ascii) (t : string) :
  scheme_state s = Some (scheme, rest) ->
  scheme_state (s ++ String c t) = Some (scheme, rest ++ String c t) /\
  (any (oneOf "?#") s = false -> any (oneOf "?#") rest = false).
Proof.
  unfold scheme_state. destruct s as [|a s]; [discriminate|].
  change (String a s ++ String c t) with (String a (s ++ String c t)).
  cbv beta iota.
  destruct (isAlpha a); [|discriminate].
  destruct (dropWhile isSchemeChar (String a s)) as [|d r] eqn:D; [discriminate|].
  destruct (Ascii.eqb d ":") eqn:E; [|discriminate].
  intros [= <- <-].
  change (String a (s ++ String c t)) with (String a s ++ String c t).
  destruct (takeWhile_append_rest _ _ (String c t) _ _ D) as [-> ->].
  rewrite E. split; [reflexivity|].
  intros N. apply (any_dropWhile _ isSchemeChar) in N. rewrite D in N.
  exact (any_tail _ _ _ N).
Qed.

Lemma path_state_append (scheme x buffer : string) (path : list string)
      (c : ascii) (t : string) :
  any (oneOf "?#") x = false -> oneOf "?#" c = true ->
  path_state scheme (x ++ String c t) buffer path
  = (fst (path_state scheme x buffer path), String c t).
Proof.
  intros N C. revert buffer path.
  induction x as [|d x IH]; intros buffer path.
  - simpl. destruct (mark_class c C) as (_ & _ & _ & _ & E1 & E2 & _).
    unfold isPathSeparator. rewrite E1, E2, andb_false_r, C. reflexivity.
  - simpl in N. apply orb_false_iff in N as [D N]. simpl.
    destruct (isPathSeparator scheme d); [apply (IH N)|].
    rewrite D. apply (IH N).
Qed.

Lemma path_start_state_append (scheme x : string) (c : ascii) (t : string) :
  isSpecial scheme = true ->
  any (oneOf "?#") x = false -> oneOf "?#" c = true ->
  path_start_state scheme (x ++ String c t)
  = (fst (path_start_state scheme x), String c t).
Proof.
  intros S N C. unfold path_start_state. rewrite S.
  destruct x as [|d x].
  - simpl. destruct (mark_class c C) as (_ & _ & E & _). rewrite E.
    apply (path_state_append scheme "" "" [] c t); [reflexivity | exact C].
  - change (String d x ++ String c t) with (String d (x ++ String c t)).
    cbv beta iota.
    destruct (oneOf "/\" d).
    + apply path_state_append; [exact (any_tail _ _ _ N) | exact C].
    + apply (path_state_append scheme (String d x)); assumption.
Qed.

Section Normalizer.

Variable hostParser : bool -> string -> option string.

(** What the URL Standard guarantees of the host parser on the host of a
    special URL: the host it gives is serialized in the shape of a host, is
    read back as itself, and is not empty. *)
Hypothesis host_shape :
  forall input h, hostParser false input = Some h -> hostShape h = true.
Hypothesis host_stable :
  forall input h, hostParser false input = Some h -> hostParser false h = Some h.
Hypothesis host_nonempty :
  forall input h, hostParser false input = Some h -> h <> "".

Lemma valid_is_http (url : string) :
  isValidUrl hostParser url = Returns true ->
  exists u, parse hostParser url = Some u /\ isHttp (url_scheme u).
Proof.
  rewrite isValidUrl_value.
  destruct (parse hostParser url) as [u|]; [|discriminate].
  intros [= H]. exists u. split; [reflexivity|].
  unfold includes, protocol in H. simpl in H.
  destruct (String.eqb_spec (url_scheme u ++ ":") "http:") as [E|_].
  { left. change "http:" with ("http" ++ ":") in E.
    now apply append_inv_tail in E. }
  destruct (String.eqb_spec (url_scheme u ++ ":") "https:") as [E|_]; [|discriminate].
  right. change "https:" with ("https" ++ ":") in E.
  now apply append_inv_tail in E.
Qed.

Lemma cleaned_http (url : string) (u : URL) :
  parse hostParser url = Some u -> isHttp (url_scheme u) ->
  exists buffer h path,
    hostParser false buffer = Some h /\
    portKept (url_scheme u) (url_port u) /\ cleanPath path /\ path <> [] /\
    protocol u ++ "//" ++ host u ++ pathname u
    = url_scheme u ++ "://" ++ hostText h (url_port u) ++ serializeSegments path.
Proof.
  intros P Http.
  destruct (parse_http hostParser _ _ P Http)
    as (buffer & h & path & B & H & Po & Pa & C & N).
  exists buffer, h, path. repeat split; auto.
  unfold protocol, host, pathname, hostText. rewrite H, Pa.
  now rewrite append_assoc.
Qed.

Lemma authority_state_empty (scheme : string) :
  isSpecial scheme = true -> authority_state hostParser scheme "" = None.
Proof.
  intros S. unfold authority_state, host_port_state. simpl. now rewrite S.
Qed.

(** the parser on an http(s) URL, state by state *)
Lemma parse_http_states (url : string) (u : URL) :
  parse hostParser url = Some u -> isHttp (url_scheme u) ->
  exists rest,
    scheme_state (preprocess url) = Some (url_scheme u, rest) /\
    authority_state hostParser (url_scheme u) (dropWhile (oneOf "/\") rest) = Some u.
Proof.
  intros P Http. destruct (isHttp_special _ Http) as [S F]. revert P.
  unfold parse.
  destruct (scheme_state (preprocess url)) as [[scheme rest]|]; [|discriminate].
  destruct (scheme =? "file") eqn:Fi.
  { intros H. rewrite (file_state_scheme _ _ _ H) in F. discriminate. }
  destruct (isSpecial scheme) eqn:Sp.
  { intros H.
    destruct (authority_state_inv _ _ _ _ H) as (_ & _ & _ & _ & _ & _ & E & _).
    subst scheme. eauto. }
  assert (K : forall v, url_scheme v = scheme -> Some v = Some u -> 
                        exists rest0,
                          Some (scheme, rest) = Some (url_scheme u, rest0) /\
                          authority_state hostParser (url_scheme u)
                            (dropWhile (oneOf "/\") rest0) = Some u).
  { intros v E [= <-]. rewrite E, Sp in S. discriminate. }
  repeat match goal with
         | |- Some ?v = Some u -> _ => apply (K v); reflexivity
         | |- authority_state _ _ _ = Some u -> _ =>
             let H := fresh in
             intros H;
             destruct (authority_state_inv _ _ _ _ H) as (_ & _ & _ & _ & _ & _ & E & _);
             rewrite <- E, S in Sp; discriminate
         | |- context [match ?x with _ => _ end] => destruct x
         | |- context [let '(_, _) := ?x in _] => destruct x
         end.
Qed.

Lemma authority_state_append (scheme a : string) (u : URL) (c : ascii) (t : string) :
  isSpecial scheme = true ->
  any (oneOf "?#") a = false -> oneOf "?#" c = true ->
  authority_state hostParser scheme a = Some u ->
  exists u',
    authority_state hostParser scheme (a ++ String c t) = Some u' /\
    url_scheme u' = url_scheme u /\ url_host u' = url_host u /\
    url_port u' = url_port u /\ url_path u' = url_path u.
Proof.
  intros S N C. unfold authority_state.
  assert (T : stops (fun c => negb (isAuthorityEnd scheme c)) (String c t)).
  { simpl. unfold isAuthorityEnd.
    destruct (mark_class c C) as (_ & _ & _ & _ & _ & _ & E). now rewrite E. }
  destruct (span_append_stop _ a _ T) as [-> ->].
  destruct (splitLastAt _) as [userinfo hostport].
  destruct (match userinfo with Some _ => hostport =? "" | None => false end);
    [discriminate|].
  destruct (host_port_state hostParser scheme hostport) as [[h port]|]; [|discriminate].
  destruct (credentials userinfo) as [username password].
  rewrite (path_start_state_append scheme _ c t S
             (any_dropWhile _ _ _ N) C).
  destruct (path_start_state scheme _) as [path rest'].
  destruct (query_fragment_state scheme rest') as [query fragment].
  destruct (query_fragment_state scheme (String c t)) as [query' fragment'].
  intros [= <-]. eexists. split; [reflexivity|]. simpl. auto.
Qed.

(** an http(s) URL followed by a query string or a fragment parses to
    the same scheme, host, port and path *)
Lemma parse_append_mark (b : string) (c : ascii) (t : string) (u : URL) :
  all visible b = true -> any (oneOf "?#") b = false ->
  parse hostParser b = Some u -> isHttp (url_scheme u) ->
  oneOf "?#" c = true ->
  exists u',
    parse hostParser (b ++ String c t) = Some u' /\
    url_scheme u' = url_scheme u /\ url_host u' = url_host u /\
    url_port u' = url_port u /\ url_path u' = url_path u.
Proof.
  intros V N P Http C.
  destruct (isHttp_special _ Http) as [S F].
  destruct (parse_http_states _ _ P Http) as (rest & Sc & A).
  rewrite (preprocess_visible _ V) in Sc.
  destruct (preprocess_append b c t V (proj1 (mark_class c C))) as [t' Pre].
  destruct (scheme_state_append _ _ _ c t' Sc) as [Sc' Nr]. specialize (Nr N).
  assert (Ne : exists d r, dropWhile (oneOf "/\") rest = String d r).
  { destruct (dropWhile (oneOf "/\") rest) as [|d r] eqn:D; [|eauto].
    rewrite (authority_state_empty _ S) in A. discriminate. }
  destruct Ne as (d & r & D).
  destruct (takeWhile_append_rest _ _ (String c t') _ _ D) as [_ D'].
  assert (Na : any (oneOf "?#") (String d r) = false).
  { rewrite <- D. now apply any_dropWhile. }
  rewrite D in A.
  destruct (authority_state_append _ _ _ c t' S Na C A) as (u' & A' & E1 & E2 & E3 & E4).
  exists u'. split; [|auto].
  unfold parse. rewrite Pre, Sc', F, S, D'. exact A'.
Qed.








(** C8, on the inputs for which it holds: [cleanUrl] is a function, and
    applying it again changes nothing when the input does not parse as a
    URL, or is an http(s) URL (what [isValidUrl] accepts). *)
Theorem cleanUrl_idempotent_on_pages (url once : string) :
  parse hostParser url = None \/ isValidUrl hostParser url = Returns true ->
  cleanUrl hostParser url = Returns once ->
  cleanUrl hostParser once = Returns once.
Proof.
  intros [P | V].
  - rewrite cleanUrl_value, P. intros [= <-]. now rewrite cleanUrl_value, P.
  - destruct (valid_is_http _ V) as (u & P & Http).
    destruct (cleaned_http _ _ P Http) as (buffer & h & path & B & Po & C & Ne & E).
    pose proof (host_stable _ _ B) as H. pose proof (host_nonempty _ _ B) as N.
    rewrite cleanUrl_value, P, E. intros X.
    assert (O : once = url_scheme u ++ "://" ++ hostText h (url_port u)
                       ++ serializeSegments path) by congruence.
    clear X. rewrite O, cleanUrl_value.
    rewrite (parse_serialized hostParser host_shape _ _ _ _ Http H N Po C Ne).
    unfold protocol, host, pathname, hostText. simpl.
    now rewrite append_assoc.
Qed.

End Normalizer.



Lemma cleanUrl_idempotent_on_pages_witness :
  isValidUrl plainHostParser "https://a.com/p?q=1#frag" = Returns true /\
  cleanUrl plainHostParser "https://a.com/p?q=1#frag" = Returns "https://a.com/p" /\
  cleanUrl plainHostParser "https://a.com/p" = Returns "https://a.com/p".
Proof.
  split; [reflexivity|]. split; [reflexivity|].
  exact (cleanUrl_idempotent_on_pages plainHostParser
           plain_host_shape plain_host_stable plain_host_nonempty
           "https://a.com/p?q=1#frag" "https://a.com/p"
           (or_intror eq_refl) eq_refl).
Defined.

(** C8 fails on other schemes: on [mailto:a@b.com] a second application
    changes the result of the first. *)
Lemma cleanUrl_twice_mailto :
  cleanUrl plainHostParser "mailto:a@b.com" = Returns "mailto://a@b.com" /\
  cleanUrl plainHostParser "mailto://a@b.com" = Returns "mailto://b.com" /\
  "mailto://b.com" <> "mailto://a@b.com".
Proof. split; [reflexivity|]. split; [reflexivity | discriminate]. Qed.

(** C1 fails: [ftp://x] parses, its scheme is neither http nor https, and
    [cleanUrl] returns a normalized URL for it; [not a url] does not parse,
    and [cleanUrl] returns it.  Neither call throws. *)
Lemma cleanUrl_accepts_ftp :
  (exists u, parse plainHostParser "ftp://x" = Some u /\ url_scheme u = "ftp") /\
  cleanUrl plainHostParser "ftp://x" = Returns "ftp://x/" /\
  parse plainHostParser "not a url" = None /\
  cleanUrl plainHostParser "not a url" = Returns "not a url".
Proof.
  split; [eexists; split; reflexivity|].
  split; [reflexivity|]. split; reflexivity.
Qed.

End NormalizerFacts.

(** ** More on the background worker: replies and listeners *)

Module WorkerExtras.
Import Url JArchiveBackground Extractor LookupSpec WorkerFacts Replies BackgroundService Scenarios.

Lemma link_nonempty (a : string) : is_archive_link a -> truthy (Some a) = true.
Proof.
  intros L. apply ExtractorFacts.link_length in L.
  destruct a; [simpl in L; lia | reflexivity].
Qed.

Lemma parse_some_link (html url a : string) :
  parseArchiveResults html url = Some a -> is_archive_link a.
Proof.
  rewrite ExtractorFacts.parse_is_first_match. intros P.
  apply ExtractorFacts.first_match_some in P.
  destruct P as (_ & _ & _ & L & _). exact L.
Qed.

Section Worker.

Variable hostParser : bool -> string -> option string.
Variable fetch : Fetch.

(** The answer of the search, case by case. *)
Lemma searchArchiveResults_cases (searchUrl originalUrl : string) :
  (exists resp html a,
     fetch searchUrl ARCHIVE_TIMEOUT = Returns resp /\ ok resp = true /\
     text resp = Returns html /\ parseArchiveResults html originalUrl = Some a /\
     searchArchiveResults fetch searchUrl originalUrl
       = Returns (mkArchiveResponse true (Some a) None)) \/
  (forall resp html a,
     fetch searchUrl ARCHIVE_TIMEOUT = Returns resp -> ok resp = true ->
     text resp = Returns html -> parseArchiveResults html originalUrl <> Some a) /\
  ((searchArchiveResults fetch searchUrl originalUrl
      = Returns (mkArchiveResponse false None (Some "No archive results found"))) \/
   (exists reason,
      searchArchiveResults fetch searchUrl originalUrl
        = Returns (mkArchiveResponse false None (Some ("Search failed: " ++ reason))))).
Proof.
  unfold searchArchiveResults.
  destruct (fetch searchUrl ARCHIVE_TIMEOUT) as [resp|e] eqn:F; simpl.
  2: { right. split; [intros; discriminate | right; eexists; reflexivity]. }
  destruct (ok resp) eqn:K; simpl.
  2: { right. split; [intros r h a [= <-]; congruence | right; eexists; reflexivity]. }
  destruct (text resp) as [html|e] eqn:T; simpl.
  2: { right. split; [intros r h a [= <-]; congruence | right; eexists; reflexivity]. }
  destruct (parseArchiveResults html originalUrl) as [a|] eqn:P.
  - left. exists resp, html, a.
    pose proof (link_nonempty a (parse_some_link _ _ _ P)) as L.
    destruct a; [discriminate L|]. auto.
  - right. split; [|left; reflexivity].
    intros r h a [= <-] _ E. rewrite T in E. injection E as <-. congruence.
Qed.

Lemma handleFindArchive_cases (url cleaned : string) (n : nat) :
  cleanUrl hostParser url = Returns cleaned ->
  (exists resp html a,
     fetch (buildArchiveSearchUrl cleaned) ARCHIVE_TIMEOUT = Returns resp /\
     ok resp = true /\ text resp = Returns html /\
     parseArchiveResults html cleaned = Some a /\
     handleFindArchive hostParser fetch url (Some (S n)) = [(S n, foundReply a)]) \/
  (forall resp html a,
     fetch (buildArchiveSearchUrl cleaned) ARCHIVE_TIMEOUT = Returns resp ->
     ok resp = true -> text resp = Returns html ->
     parseArchiveResults html cleaned <> Some a) /\
  (handleFindArchive hostParser fetch url (Some (S n))
     = [(S n, errorReply "No archive results found")] \/
   exists reason,
     handleFindArchive hostParser fetch url (Some (S n))
       = [(S n, errorReply ("Search failed: " ++ reason))]).
Proof.
  intros C. unfold handleFindArchive.
  rewrite (findArchiveVersion_value _ _ _ _ C).
  destruct (searchArchiveResults_cases (buildArchiveSearchUrl cleaned) cleaned)
    as [(resp & html & a & F & K & T & P & R) | [N [R | [reason R]]]].
  - left. exists resp, html, a. rewrite R.
    pose proof (link_nonempty a (parse_some_link _ _ _ P)) as L.
    destruct a; [discriminate L|]. auto.
  - right. split; [exact N|]. left. rewrite R. reflexivity.
  - right. split; [exact N|]. right. exists reason. rewrite R. reflexivity.
Qed.

(** X1: a request to look up a page for a tab is answered with exactly
    one message, sent to that tab, of type ARCHIVE_FOUND or ARCHIVE_ERROR;
    without a tab id (undefined or 0) nothing is sent. *)
Theorem handleFindArchive_replies_once (url : string) :
  handleFindArchive hostParser fetch url None = [] /\
  handleFindArchive hostParser fetch url (Some 0) = [] /\
  forall n, exists reply,
    handleFindArchive hostParser fetch url (Some (S n)) = [(S n, reply)] /\
    (type reply = ARCHIVE_FOUND \/ type reply = ARCHIVE_ERROR).
Proof.
  split; [reflexivity|]. split; [reflexivity|]. intros n.
  destruct (cleanUrl_total hostParser url) as [c C].
  destruct (handleFindArchive_cases url c n C)
    as [(_ & _ & a & _ & _ & _ & _ & R) | [_ [R | [reason R]]]];
    rewrite R; eexists; split; try reflexivity; auto.
Qed.

(** X2: ARCHIVE_FOUND with the link [a] is the reply exactly when the
    lookup service answered the query for the cleaned URL with a 2xx
    status, its body could be read, and [a] is what the extractor finds in
    it. *)
Theorem found_reply_iff (url cleaned a : string) (n : nat) :
  cleanUrl hostParser url = Returns cleaned ->
  (handleFindArchive hostParser fetch url (Some (S n)) = [(S n, foundReply a)] <->
   exists resp html,
     fetch (buildArchiveSearchUrl cleaned) ARCHIVE_TIMEOUT = Returns resp /\
     ok resp = true /\ text resp = Returns html /\
     parseArchiveResults html cleaned = Some a).
Proof.
  intros C.
  destruct (handleFindArchive_cases url cleaned n C)
    as [(resp & html & a' & F & K & T & P & R) | [N [R | [reason R]]]].
  - rewrite R. split.
    + intros [= <-]. exists resp, html. auto.
    + intros (resp' & html' & F' & _ & T' & P').
      rewrite F in F'. injection F' as <-. rewrite T in T'. injection T' as <-.
      congruence.
  - rewrite R. split; [discriminate|].
    intros (resp & html & F & K & T & P). exfalso. exact (N _ _ _ F K T P).
  - rewrite R. split; [discriminate|].
    intros (resp & html & F & K & T & P). exfalso. exact (N _ _ _ F K T P).
Qed.

(** X3: the text of an ARCHIVE_ERROR reply is "No archive results found"
    or begins with "Search failed: "; the fall-back texts "Archive not
    found" and "Failed to search for archive" are never sent. *)
Theorem error_reply_texts (url : string) (tabId : option nat) (tab : nat)
        (message : ExtensionMessage) :
  In (tab, message) (handleFindArchive hostParser fetch url tabId) ->
  type message = ARCHIVE_ERROR ->
  (Messages.error (payload message) = Some "No archive results found" \/
   exists reason,
     Messages.error (payload message) = Some ("Search failed: " ++ reason)) /\
  Messages.error (payload message) <> Some "Archive not found" /\
  Messages.error (payload message) <> Some "Failed to search for archive".
Proof.
  destruct tabId as [[|n]|]; try (simpl; tauto).
  destruct (cleanUrl_total hostParser url) as [c C].
  destruct (handleFindArchive_cases url c n C)
    as [(_ & _ & a & _ & _ & _ & _ & R) | [_ [R | [reason R]]]];
    rewrite R; intros [[= <- <-]|[]]; try discriminate; intros _; simpl.
  - split; [now left|]. split; discriminate.
  - split; [right; now exists reason|]. split; discriminate.
Qed.

(** X4: starting a search for a tab sends two messages to it and to no
    other tab: first INJECT_CONTENT_SCRIPT with the URL, then the one reply
    of the lookup. *)
Theorem initiateArchiveSearch_order (url : string) (n : nat) :
  exists reply,
    initiateArchiveSearch hostParser fetch url (S n)
      = [(S n, mkMessage INJECT_CONTENT_SCRIPT (mkPayload (Some url) None None));
         (S n, reply)] /\
    (type reply = ARCHIVE_FOUND \/ type reply = ARCHIVE_ERROR).
Proof.
  unfold initiateArchiveSearch, sendMessageToTab.
  destruct (cleanUrl_total hostParser url) as [c C].
  destruct (handleFindArchive_cases url c n C)
    as [(_ & _ & a & _ & _ & _ & _ & R) | [_ [R | [reason R]]]];
    rewrite R; eexists; split; try reflexivity; auto.
Qed.

End Worker.

Lemma found_reply_iff_witness :
  cleanUrl plainHostParser "https://a.com/p?q=1" = Returns "https://a.com/p" /\
  handleFindArchive plainHostParser fetch_found "https://a.com/p?q=1" (Some 1)
    = [(1, foundReply "https://archive.ph/abc12")].
Proof.
  split; [reflexivity|].
  apply (proj2 (found_reply_iff plainHostParser fetch_found
                  "https://a.com/p?q=1" "https://a.com/p"
                  "https://archive.ph/abc12" 0 eq_refl)).
  exists (mkResponse 200 "OK" (Returns results_page)), results_page.
  repeat split; reflexivity.
Defined.

Lemma error_reply_texts_witness :
  In (1, errorReply "Search failed: signal timed out")
     (handleFindArchive plainHostParser fetch_timeout "https://a.com/p" (Some 1)) /\
  type (errorReply "Search failed: signal timed out") = ARCHIVE_ERROR /\
  Messages.error (payload (errorReply "Search failed: signal timed out"))
    <> Some "Archive not found".
Proof.
  assert (H : In (1, errorReply "Search failed: signal timed out")
                 (handleFindArchive plainHostParser fetch_timeout "https://a.com/p"
                                    (Some 1))) by (left; reflexivity).
  split; [exact H|]. split; [reflexivity|].
  exact (proj1 (proj2 (error_reply_texts plainHostParser fetch_timeout
                         "https://a.com/p" (Some 1) 1 _ H eq_refl))).
Defined.

End WorkerExtras.

(** ** The listeners of the worker *)

Module ListenerExtras.
Import Url JArchiveBackground LookupSpec WorkerFacts Replies BackgroundService Scenarios Injections.

Section Listeners.

Variable hostParser : bool -> string -> option string.
Variable fetch : Fetch.
Variable insertCSS : nat -> Js.Result unit.
Variable executeScript : nat -> Js.Result unit.

Lemma empty_url_invalid : isValidUrl hostParser "" = Returns false.
Proof. reflexivity. Qed.

Lemma sending_search (u : string) (n : nat) :
  exists reply,
    sending (initiateArchiveSearch hostParser fetch u (S n))
      = [SendToTab (S n) (mkMessage INJECT_CONTENT_SCRIPT (mkPayload (Some u) None None));
         SendToTab (S n) reply] /\
    (type reply = ARCHIVE_FOUND \/ type reply = ARCHIVE_ERROR).
Proof.
  unfold initiateArchiveSearch, sendMessageToTab.
  destruct (cleanUrl_total hostParser u) as [c C].
  destruct (WorkerExtras.handleFindArchive_cases hostParser fetch u c n C)
    as [(_ & _ & a & _ & _ & _ & _ & R) | [_ [R | [reason R]]]];
    rewrite R; eexists; split; try reflexivity; auto.
Qed.

(** X5: a click on the icon has an effect only on a tab with an id and
    the URL of an http(s) page; and the tab is sent a message only after
    both the style sheet and the script were injected without error. *)
Theorem onClicked_only_pages (tab : Tab) :
  (onClicked hostParser fetch insertCSS executeScript tab <> [] ->
   exists n u, id tab = Some (S n) /\ url tab = Some u /\
               isValidUrl hostParser u = Returns true) /\
  (forall t m,
     In (SendToTab t m) (onClicked hostParser fetch insertCSS executeScript tab) ->
     id tab = Some t /\
     insertCSS t = Returns tt /\ executeScript t = Returns tt).
Proof.
  unfold onClicked. destruct tab as [[[|n]|] [[|c u]|]]; cbn [id url];
    cbv beta iota zeta;
    try (split; [congruence | intros t m []]).
  destruct (isValidUrl hostParser (String c u)) as [[|]|e] eqn:V;
    try (split; [congruence | intros t m []]).
  split; [intros _; exists n, (String c u); auto|].
  intros t m. unfold injectContentScript.
  destruct (insertCSS (S n)) as [[]|e] eqn:I.
  2: { intros [H|[]]. discriminate. }
  destruct (executeScript (S n)) as [[]|e] eqn:X.
  2: { intros [H|[H|[]]]; discriminate. }
  destruct (sending_search (String c u) n) as (reply & -> & _).
  intros [H|[H|[H|[H|[]]]]]; try discriminate;
    injection H as <- _; auto.
Qed.

(** X6: on a tab with an id and the URL of an http(s) page, when the
    injection succeeds, the click gives exactly: the style sheet, the
    script, the message INJECT_CONTENT_SCRIPT with the URL of the tab, and
    one reply ARCHIVE_FOUND or ARCHIVE_ERROR, the messages to that tab. *)
Theorem onClicked_trace (n : nat) (u : string) :
  isValidUrl hostParser u = Returns true ->
  insertCSS (S n) = Returns tt ->
  executeScript (S n) = Returns tt ->
  exists reply,
    onClicked hostParser fetch insertCSS executeScript (mkTab (Some (S n)) (Some u))
      = [InsertCSS (S n); ExecuteScript (S n);
         SendToTab (S n) (mkMessage INJECT_CONTENT_SCRIPT (mkPayload (Some u) None None));
         SendToTab (S n) reply] /\
    (type reply = ARCHIVE_FOUND \/ type reply = ARCHIVE_ERROR).
Proof.
  intros V I X. unfold onClicked. cbn [id url].
  destruct u as [|c u]; [rewrite empty_url_invalid in V; discriminate|].
  cbv beta iota zeta. rewrite V. unfold injectContentScript. rewrite I, X.
  destruct (sending_search (String c u) n) as (reply & -> & T).
  exists reply. split; [reflexivity | exact T].
Qed.

(** X7: the message listener of the worker answers FIND_ARCHIVE from a
    tab with exactly one message to that tab and opens no tab; on
    OPEN_ARCHIVE it opens one tab on the URL of the message and sends
    nothing; it ignores every other kind of message, and a FIND_ARCHIVE
    that comes from no tab. *)
Theorem onMessage_effects (message : ExtensionMessage) (senderTab : option nat) :
  match type message with
  | FIND_ARCHIVE =>
      match senderTab with
      | Some (S n) =>
          exists reply,
            onMessage hostParser fetch message senderTab = [SendToTab (S n) reply] /\
            (type reply = ARCHIVE_FOUND \/ type reply = ARCHIVE_ERROR)
      | _ => onMessage hostParser fetch message senderTab = []
      end
  | OPEN_ARCHIVE =>
      onMessage hostParser fetch message senderTab
        = [CreateTab (Messages.url (payload message))]
  | _ => onMessage hostParser fetch message senderTab = []
  end.
Proof.
  unfold onMessage. destruct (type message); try reflexivity.
  destruct senderTab as [[|n]|]; try reflexivity.
  destruct (cleanUrl_total hostParser (toString (Messages.url (payload message))))
    as [c C].
  destruct (WorkerExtras.handleFindArchive_cases hostParser fetch _ c n C)
    as [(_ & _ & a & _ & _ & _ & _ & R) | [_ [R | [reason R]]]];
    rewrite R; eexists; split; try reflexivity; auto.
Qed.

End Listeners.

Lemma onClicked_trace_witness :
  isValidUrl plainHostParser "https://a.com/p?q=1" = Returns true /\
  exists reply,
    onClicked plainHostParser fetch_found injection_ok injection_ok
              (mkTab (Some 1) (Some "https://a.com/p?q=1"))
    = [InsertCSS 1; ExecuteScript 1;
       SendToTab 1 (mkMessage INJECT_CONTENT_SCRIPT
                              (mkPayload (Some "https://a.com/p?q=1") None None));
       SendToTab 1 reply] /\
    (type reply = ARCHIVE_FOUND \/ type reply = ARCHIVE_ERROR).
Proof.
  split; [reflexivity|].
  exact (onClicked_trace plainHostParser fetch_found injection_ok injection_ok
           0 "https://a.com/p?q=1" eq_refl eq_refl eq_refl).
Defined.

Lemma onClicked_only_pages_witness :
  onClicked plainHostParser fetch_found injection_ok injection_ok
            (mkTab (Some 1) (Some "https://a.com/p?q=1")) <> [] /\
  (exists n u, Some 1 = Some (S n) /\ Some "https://a.com/p?q=1" = Some u /\
               isValidUrl plainHostParser u = Returns true) /\
  onClicked plainHostParser fetch_found injection_ok injection_ok
            (mkTab (Some 1) (Some "chrome://extensions/")) = [] /\
  onClicked plainHostParser fetch_found injection_ok injection_refused
            (mkTab (Some 1) (Some "https://a.com/p?q=1"))
  = [InsertCSS 1; ExecuteScript 1].
Proof.
  assert (H : onClicked plainHostParser fetch_found injection_ok injection_ok
                        (mkTab (Some 1) (Some "https://a.com/p?q=1")) <> [])
    by discriminate.
  split; [exact H|]. split; [|split; reflexivity].
  exact (proj1 (onClicked_only_pages plainHostParser fetch_found injection_ok
                  injection_ok (mkTab (Some 1) (Some "https://a.com/p?q=1"))) H).
Defined.

End ListenerExtras.

(** ** The query sent to the lookup service *)

Module UriExtras.
Import Url JArchiveBackground UriSpec UrlFacts.

Lemma unreserved_not_percent (c : ascii) :
  isUriUnreserved c = true -> Ascii.eqb c "%" = false.
Proof. by_ascii c. Qed.

Lemma hex_round_trip (c : ascii) :
  ascii_of_nat (16 * hexValue (hexDigit (code c / 16))
                + hexValue (hexDigit (code c mod 16))) = c.
Proof. by_ascii c. Qed.

Lemma unescape_byte (c : ascii) (t : string) (fuel : nat) :
  unescape (S fuel) (percentEncodeByte c ++ t) = String c (unescape fuel t).
Proof.
  change (unescape (S fuel) (percentEncodeByte c ++ t))
    with (String (ascii_of_nat (16 * hexValue (hexDigit (code c / 16))
                                + hexValue (hexDigit (code c mod 16))))
                 (unescape fuel t)).
  now rewrite hex_round_trip.
Qed.

Lemma percentEncodeByte_escaped (c : ascii) : all isEscaped (percentEncodeByte c) = true.
Proof. by_ascii c. Qed.

Lemma encodeURIComponent_cons (c : ascii) (s : string) :
  encodeURIComponent (String c s) =
  (if isUriUnreserved c then String c "" else percentEncodeByte c)
  ++ encodeURIComponent s.
Proof.
  unfold encodeURIComponent, percentEncode. simpl. unfold percentEncodeChar.
  now destruct (isUriUnreserved c).
Qed.

Lemma unescape_encodeURIComponent (s : string) (fuel : nat) :
  String.length (encodeURIComponent s) <= fuel ->
  unescape fuel (encodeURIComponent s) = s.
Proof.
  revert fuel. induction s as [|c s IH]; intros fuel L.
  - destruct fuel; reflexivity.
  - rewrite encodeURIComponent_cons in *.
    destruct (isUriUnreserved c) eqn:U.
    + simpl in *. destruct fuel as [|fuel]; [lia|]. simpl.
      rewrite (unreserved_not_percent c U), IH by lia. reflexivity.
    + rewrite length_append in L.
      assert (String.length (percentEncodeByte c) = 3) as E by reflexivity.
      destruct fuel as [|fuel]; [lia|].
      rewrite unescape_byte, IH by lia. reflexivity.
Qed.

Lemma encodeURIComponent_escaped (s : string) :
  all isEscaped (encodeURIComponent s) = true.
Proof.
  induction s as [|c s IH]; [reflexivity|].
  rewrite encodeURIComponent_cons, all_append, IH, andb_true_r.
  destruct (isUriUnreserved c) eqn:U; [|apply percentEncodeByte_escaped].
  simpl. unfold isEscaped. now rewrite U.
Qed.

(** X8: two different URLs never give the same query: from equal search
    URLs follow equal page URLs. *)
Theorem buildArchiveSearchUrl_injective (a b : string) :
  buildArchiveSearchUrl a = buildArchiveSearchUrl b -> a = b.
Proof.
  unfold buildArchiveSearchUrl. intros H. apply append_inv_head in H.
  rewrite <- (unescape_encodeURIComponent a _ (le_n _)).
  rewrite <- (unescape_encodeURIComponent b _ (le_n _)).
  now rewrite H.
Qed.

Lemma buildArchiveSearchUrl_injective_witness :
  buildArchiveSearchUrl "https://a.com/p" = buildArchiveSearchUrl "https://a.com/p" /\
  "https://a.com/p" = "https://a.com/p".
Proof.
  split; [reflexivity|].
  exact (buildArchiveSearchUrl_injective "https://a.com/p" "https://a.com/p" eq_refl).
Defined.

(** X9: the search URL is [https://archive.ph/] followed by the escaped
    page URL, made of unreserved characters and [%XY] escapes only (no
    [/], [?], [#] or space: one path segment), from which the page URL is
    read back by undoing the escapes. *)
Theorem buildArchiveSearchUrl_shape (url : string) :
  exists q,
    buildArchiveSearchUrl url = "https://archive.ph/" ++ q /\
    all isEscaped q = true /\
    any (oneOf "/?#& ") q = false /\
    unescape (String.length q) q = url.
Proof.
  exists (encodeURIComponent url). split; [reflexivity|].
  split; [apply encodeURIComponent_escaped|]. split.
  - apply all_none_any. apply (all_impl isEscaped); [|apply encodeURIComponent_escaped].
    intros c. by_ascii c.
  - apply unescape_encodeURIComponent. apply le_n.
Qed.

End UriExtras.

(** ** More on the clean-up of the URL *)

Module NormalizerExtras.
Import Url UrlSpec UrlFacts JArchiveBackground LookupSpec WorkerFacts NormalizerFacts.

Section Normalizer.

Variable hostParser : bool -> string -> option string.

(** X10: two pages that differ only in what follows the first [?] or [#]
    are looked up under the same URL: on an http(s) URL [b] without [?],
    [#], control character or space, [cleanUrl] gives for [b] followed by
    any query string or fragment what it gives for [b]. *)
Theorem cleanUrl_ignores_query_and_fragment (b : string) (c : ascii) (t : string) :
  all visible b = true ->
  any (oneOf "?#") b = false ->
  isValidUrl hostParser b = Returns true ->
  oneOf "?#" c = true ->
  cleanUrl hostParser (b ++ String c t) = cleanUrl hostParser b.
Proof.
  intros V N Valid C.
  destruct (valid_is_http hostParser _ Valid) as (u & P & Http).
  destruct (parse_append_mark hostParser b c t u V N P Http C)
    as (u' & P' & E1 & E2 & E3 & E4).
  rewrite !cleanUrl_value, P, P'.
  unfold protocol, host, pathname. now rewrite E1, E2, E3, E4.
Qed.

Hypothesis host_shape :
  forall input h, hostParser false input = Some h -> hostShape h = true.
Hypothesis host_stable :
  forall input h, hostParser false input = Some h -> hostParser false h = Some h.
Hypothesis host_nonempty :
  forall input h, hostParser false input = Some h -> h <> "".

(** X11: the clean-up of a URL that [isValidUrl] accepts is again a URL
    that [isValidUrl] accepts, and begins with [http://] or [https://]. *)
Theorem cleanUrl_keeps_valid (url cleaned : string) :
  isValidUrl hostParser url = Returns true ->
  cleanUrl hostParser url = Returns cleaned ->
  isValidUrl hostParser cleaned = Returns true /\
  startsWith "http://" cleaned || startsWith "https://" cleaned = true.
Proof.
  intros V. destruct (valid_is_http hostParser _ V) as (u & P & Http).
  destruct (cleaned_http hostParser _ _ P Http)
    as (buffer & h & path & B & Po & C & Ne & E).
  pose proof (host_stable _ _ B) as H. pose proof (host_nonempty _ _ B) as N.
  rewrite cleanUrl_value, P, E. intros X.
  assert (O : cleaned = url_scheme u ++ "://" ++ hostText h (url_port u)
                        ++ serializeSegments path) by congruence.
  clear X. rewrite O, isValidUrl_value.
  rewrite (parse_serialized hostParser host_shape _ _ _ _ Http H N Po C Ne).
  destruct Http as [-> | ->]; split; reflexivity.
Qed.

End Normalizer.

Lemma cleanUrl_ignores_query_and_fragment_witness :
  all visible "https://a.com/p" = true /\
  any (oneOf "?#") "https://a.com/p" = false /\
  isValidUrl plainHostParser "https://a.com/p" = Returns true /\
  cleanUrl plainHostParser "https://a.com/p?q=1#frag"
  = cleanUrl plainHostParser "https://a.com/p".
Proof.
  repeat (split; [reflexivity|]).
  exact (cleanUrl_ignores_query_and_fragment plainHostParser
           "https://a.com/p" "?" "q=1#frag" eq_refl eq_refl eq_refl eq_refl).
Defined.

Lemma cleanUrl_keeps_valid_witness :
  isValidUrl plainHostParser "HTTPS://User@A.com:443/a/../p?q" = Returns true /\
  cleanUrl plainHostParser "HTTPS://User@A.com:443/a/../p?q" = Returns "https://a.com/p" /\
  isValidUrl plainHostParser "https://a.com/p" = Returns true.
Proof.
  split; [reflexivity|]. split; [reflexivity|].
  exact (proj1 (cleanUrl_keeps_valid plainHostParser
                  plain_host_shape plain_host_stable plain_host_nonempty
                  "HTTPS://User@A.com:443/a/../p?q" "https://a.com/p"
                  eq_refl eq_refl)).
Defined.

End NormalizerExtras.

(** ** More on the notification UI *)

Module ContentExtras.
Import Url JArchiveBackground Extractor LookupSpec WorkerFacts Replies.
Import JArchiveContent NotificationActions Delivery Scenarios Injections.

Lemma state_renderUI_extra (u : ArchiveNotificationUI) : state (renderUI u) = state u.
Proof. unfold renderUI. now destruct (container u). Qed.

Lemma handleMessage_twice (m : ExtensionMessage) (u : ArchiveNotificationUI) :
  handleMessage m (handleMessage m u) = handleMessage m u.
Proof.
  unfold handleMessage. destruct (type m); try reflexivity;
    unfold updateState, renderUI; simpl;
    destruct (container u); simpl; try reflexivity.
  - now destruct (truthy (Messages.archiveUrl (payload m))).
  - now destruct (truthy (Messages.error (payload m))).
Qed.

Lemma forward_twice (m : ExtensionMessage) (cs : ContentScript) :
  forward m (forward m cs) = forward m cs.
Proof.
  unfold forward. destruct (ui cs) as [u|] eqn:U; [|now rewrite U].
  destruct (includes_type _ (type m)) eqn:T.
  - cbn [ui forwarders]. now rewrite handleMessage_twice.
  - now rewrite U.
Qed.

Lemma iter_forward (m : ExtensionMessage) (cs : ContentScript) (n : nat) :
  Nat.iter (S n) (forward m) cs = forward m cs.
Proof.
  induction n as [|n IH]; [reflexivity|].
  change (Nat.iter (S (S n)) (forward m) cs)
    with (forward m (Nat.iter (S n) (forward m) cs)).
  now rewrite IH, forward_twice.
Qed.

Lemma iter_forward_other (m : ExtensionMessage) (cs : ContentScript) (n : nat) :
  includes_type [ARCHIVE_FOUND; ARCHIVE_ERROR] (type m) = false ->
  Nat.iter n (forward m) cs = cs.
Proof.
  intros T. induction n as [|n IH]; [reflexivity|]. simpl. rewrite IH.
  unfold forward. rewrite T. now destruct (ui cs).
Qed.

Lemma onMessage_reply (m : ExtensionMessage) (cs : ContentScript)
      (u : ArchiveNotificationUI) (n : nat) :
  ui cs = Some u -> forwarders cs = S n ->
  type m = ARCHIVE_FOUND \/ type m = ARCHIVE_ERROR ->
  onMessage m cs = mkContentScript (Some (handleMessage m u)) (S n).
Proof.
  intros U F T. unfold onMessage.
  assert (E : match type m with
              | INJECT_CONTENT_SCRIPT => handleInjection (Messages.url (payload m)) cs
              | _ => cs
              end = cs) by (destruct T as [-> | ->]; reflexivity).
  rewrite E, F, iter_forward. unfold forward. rewrite U, F.
  destruct T as [-> | ->]; reflexivity.
Qed.

(** X12: every injection leaves one more forwarding listener behind, and
    a reply is then handled once by each of them; the result is the same
    as handling it once. *)
Theorem repeated_forwarders_harmless (m : ExtensionMessage) (cs : ContentScript)
        (u : ArchiveNotificationUI) (n : nat) :
  ui cs = Some u -> forwarders cs = S n ->
  type m = ARCHIVE_FOUND \/ type m = ARCHIVE_ERROR ->
  onMessage m cs = mkContentScript (Some (handleMessage m u)) (S n) /\
  handleMessage m (handleMessage m u) = handleMessage m u.
Proof.
  intros U F T. split; [now apply onMessage_reply | apply handleMessage_twice].
Qed.

Lemma repeated_forwarders_harmless_witness :
  ui retriggered_tab = Some (init (Some new_target) new_ArchiveNotificationUI) /\
  forwarders retriggered_tab = 2 /\
  onMessage late_reply retriggered_tab
  = mkContentScript
      (Some (handleMessage late_reply (init (Some new_target) new_ArchiveNotificationUI))) 2.
Proof.
  split; [reflexivity|]. split; [reflexivity|].
  exact (proj1 (repeated_forwarders_harmless late_reply retriggered_tab _ 1
                  eq_refl eq_refl (or_introl eq_refl))).
Defined.

Lemma handleMessage_found (a : string) (u : ArchiveNotificationUI) :
  truthy (Some a) = true -> container u <> None ->
  handleMessage (foundReply a) u
  = mkUI (Some getArchiveFoundHTML) (mkUIState false true (Some a) None) (currentUrl u).
Proof.
  intros A C. destruct a as [|c a]; [discriminate|].
  unfold handleMessage, updateState, renderUI. simpl.
  destruct (container u); [reflexivity | congruence].
Qed.

Lemma handleMessage_error (c : ascii) (e : string) (u : ArchiveNotificationUI) :
  container u <> None ->
  handleMessage (errorReply (String c e)) u
  = mkUI (Some (errorCard (String c e)))
         (mkUIState false false None (Some (String c e))) (currentUrl u).
Proof.
  intros C. unfold handleMessage, updateState, renderUI. simpl.
  destruct (container u); [reflexivity | congruence].
Qed.

Section Worker.

Variable hostParser : bool -> string -> option string.
Variable fetch : Fetch.

Lemma reply_settles (url : string) (n : nat) (u : ArchiveNotificationUI) :
  container u <> None ->
  exists reply,
    handleFindArchive hostParser fetch url (Some (S n)) = [(S n, reply)] /\
    currentUrl (handleMessage reply u) = currentUrl u /\
    settled (handleMessage reply u) /\
    (type reply = ARCHIVE_FOUND \/ type reply = ARCHIVE_ERROR).
Proof.
  intros C. destruct (cleanUrl_total hostParser url) as [c Cl].
  destruct (WorkerExtras.handleFindArchive_cases hostParser fetch url c n Cl)
    as [(_ & html & a & _ & _ & _ & P & R) | [_ [R | [reason R]]]];
    rewrite R; eexists; (split; [reflexivity|]).
  - pose proof (WorkerExtras.parse_some_link _ _ _ P) as L.
    rewrite (handleMessage_found a u (WorkerExtras.link_nonempty a L) C).
    split; [reflexivity|]. split; [|now left].
    left. exists a. auto.
  - change (errorReply "No archive results found")
      with (errorReply (String "N" "o archive results found")).
    rewrite (handleMessage_error _ _ u C).
    split; [reflexivity|]. split; [|now right].
    right. eexists. split; [|split; reflexivity]. discriminate.
  - change (errorReply ("Search failed: " ++ reason))
      with (errorReply (String "S" ("earch failed: " ++ reason))).
    rewrite (handleMessage_error _ _ u C).
    split; [reflexivity|]. split; [|now right].
    right. eexists. split; [|split; reflexivity]. discriminate.
Qed.

(** X13: whatever the lookup gives, once the UI (with its container in
    the page) has handled the reply of the worker it is no longer loading:
    it shows the card "Archive Found!" and holds a link of the lookup host,
    or it shows the error card with a text that is not empty. *)
Theorem reply_always_rendered (url : string) (tabId : option nat) (tab : nat)
        (reply : ExtensionMessage) (u : ArchiveNotificationUI) :
  In (tab, reply) (handleFindArchive hostParser fetch url tabId) ->
  container u <> None ->
  settled (handleMessage reply u) /\
  container (handleMessage reply u) <> Some getLoadingHTML.
Proof.
  intros I C. destruct tabId as [[|n]|]; try (simpl in I; tauto).
  destruct (reply_settles url n u C) as (r & R & _ & S & _).
  rewrite R in I. destruct I as [[= <- <-]|[]].
  split; [exact S|].
  destruct S as [(a & _ & _ & ->) | (e & _ & _ & ->)]; discriminate.
Qed.

(** X15: when the reply is ARCHIVE_FOUND, a click on "Open Archive" sends
    one message OPEN_ARCHIVE, and the worker answers it by opening one tab,
    on a link of the lookup host: the link that the reply carried. *)
Theorem open_button_opens_found_link (url : string) (tabId : option nat) (tab : nat)
        (reply : ExtensionMessage) (u : ArchiveNotificationUI) :
  In (tab, reply) (handleFindArchive hostParser fetch url tabId) ->
  type reply = ARCHIVE_FOUND ->
  exists a m,
    is_archive_link a /\
    Messages.archiveUrl (payload reply) = Some a /\
    fst (handleClick "j-archive-open-btn" (handleMessage reply u)) = [m] /\
    forall fetch' senderTab,
      BackgroundService.onMessage hostParser fetch' m senderTab
      = [BackgroundService.CreateTab (Some a)].
Proof.
  intros I T. destruct tabId as [[|n]|]; try (simpl in I; tauto).
  destruct (cleanUrl_total hostParser url) as [c Cl].
  destruct (WorkerExtras.handleFindArchive_cases hostParser fetch url c n Cl)
    as [(_ & html & a & _ & _ & _ & P & R) | [_ [R | [reason R]]]];
    rewrite R in I; destruct I as [[= <- <-]|[]]; try discriminate.
  pose proof (WorkerExtras.parse_some_link _ _ _ P) as L.
  pose proof (WorkerExtras.link_nonempty a L) as A.
  exists a, (mkMessage OPEN_ARCHIVE (mkPayload (Some a) None None)).
  split; [exact L|]. split; [reflexivity|]. split; [|reflexivity].
  destruct a as [|x a]; [discriminate|].
  unfold handleClick, openArchive, handleMessage, updateState. simpl.
  rewrite state_renderUI_extra. simpl.
  now destruct (close _).
Qed.

Lemma deliver_injection (u : string) (cs : ContentScript) :
  onMessage (inject u) cs
  = mkContentScript (Some (init (Some u) new_ArchiveNotificationUI)) (S (forwarders cs)).
Proof.
  unfold onMessage, inject. cbn [type payload Messages.url].
  rewrite iter_forward_other by reflexivity. reflexivity.
Qed.

(** X17: from the click to the card.  On a tab with the URL of an http(s)
    page, when the injection succeeds, the messages that the click makes
    the worker send leave the content script of the tab, whatever it held
    before, with a UI for that URL that is no longer loading and shows
    either "Archive Found!" with a link of the lookup host or the error
    card with a text. *)
Theorem click_to_card (insertCSS executeScript : nat -> Js.Result unit)
        (n : nat) (u : string) (cs : ContentScript) :
  isValidUrl hostParser u = Returns true ->
  insertCSS (S n) = Returns tt ->
  executeScript (S n) = Returns tt ->
  exists v,
    ui (deliver (messagesTo (S n)
                   (BackgroundService.onClicked hostParser fetch insertCSS
                      executeScript (BackgroundService.mkTab (Some (S n)) (Some u))))
                cs) = Some v /\
    currentUrl v = Some u /\ settled v.
Proof.
  intros V I X.
  assert (C : container (init (Some u) new_ArchiveNotificationUI) <> None) by discriminate.
  destruct (reply_settles u n (init (Some u) new_ArchiveNotificationUI) C)
    as (reply & R & Cu & Se & T).
  assert (E : BackgroundService.onClicked hostParser fetch insertCSS executeScript
                (BackgroundService.mkTab (Some (S n)) (Some u))
              = [BackgroundService.InsertCSS (S n); BackgroundService.ExecuteScript (S n);
                 BackgroundService.SendToTab (S n) (inject u);
                 BackgroundService.SendToTab (S n) reply]).
  { unfold BackgroundService.onClicked.
    cbn [BackgroundService.id BackgroundService.url].
    destruct u as [|c u];
      [rewrite ListenerExtras.empty_url_invalid in V; discriminate|].
    cbv beta iota zeta. rewrite V.
    unfold BackgroundService.injectContentScript. rewrite I, X.
    unfold initiateArchiveSearch, sendMessageToTab. rewrite R. reflexivity. }
  rewrite E. cbn [messagesTo]. rewrite Nat.eqb_refl.
  unfold deliver. cbn [fold_left]. rewrite deliver_injection.
  rewrite (onMessage_reply reply
             (mkContentScript (Some (init (Some u) new_ArchiveNotificationUI))
                              (S (forwarders cs)))
             (init (Some u) new_ArchiveNotificationUI) (forwarders cs) eq_refl eq_refl T).
  cbn [ui]. eexists. split; [reflexivity|]. split; [|exact Se].
  rewrite Cu. reflexivity.
Qed.

End Worker.

(** X14: a message ARCHIVE_ERROR without text, or ARCHIVE_FOUND without
    URL, ends the loading state but changes nothing on the page: the card
    shown before (the spinner, if the UI was searching) stays. *)
Theorem message_without_text_keeps_card (m : ExtensionMessage)
        (u : ArchiveNotificationUI) :
  (type m = ARCHIVE_ERROR /\ truthy (Messages.error (payload m)) = false) \/
  (type m = ARCHIVE_FOUND /\ truthy (Messages.archiveUrl (payload m)) = false) ->
  container (handleMessage m u) = container u /\
  isLoading (state (handleMessage m u)) = false.
Proof.
  unfold handleMessage, updateState, renderUI.
  intros [[-> T] | [-> T]]; cbn [container state isLoading hasArchive archiveUrl error];
    destruct (container u); cbn [container state isLoading];
    rewrite ?T, ?andb_false_r; auto.
Qed.

Lemma message_without_text_keeps_card_witness :
  let m := mkMessage ARCHIVE_ERROR (mkPayload None None None) in
  let u := init (Some new_target) new_ArchiveNotificationUI in
  ((type m = ARCHIVE_ERROR /\ truthy (Messages.error (payload m)) = false) \/
   (type m = ARCHIVE_FOUND /\ truthy (Messages.archiveUrl (payload m)) = false)) /\
  container (handleMessage m u) = Some getLoadingHTML /\
  isLoading (state (handleMessage m u)) = false.
Proof.
  intros m u.
  assert (H : (type m = ARCHIVE_ERROR /\ truthy (Messages.error (payload m)) = false) \/
              (type m = ARCHIVE_FOUND /\
               truthy (Messages.archiveUrl (payload m)) = false))
    by (left; split; reflexivity).
  split; [exact H|].
  exact (message_without_text_keeps_card m u H).
Defined.

(** X16: after a message ARCHIVE_ERROR the UI holds no archive URL: a
    click on the id of the open button sends nothing and sets no timer,
    whatever was found before. *)
Theorem no_open_after_error (m : ExtensionMessage) (u : ArchiveNotificationUI) :
  type m = ARCHIVE_ERROR ->
  archiveUrl (state (handleMessage m u)) = None /\
  handleClick "j-archive-open-btn" (handleMessage m u) = ([], []).
Proof.
  intros T. unfold handleClick, openArchive, handleMessage, updateState. rewrite T.
  rewrite state_renderUI_extra. split; reflexivity.
Qed.

Lemma no_open_after_error_witness :
  type (errorReply "Search failed: signal timed out") = ARCHIVE_ERROR /\
  handleClick "j-archive-open-btn"
    (handleMessage (errorReply "Search failed: signal timed out")
       (handleMessage late_reply (init (Some new_target) new_ArchiveNotificationUI)))
  = ([], []).
Proof.
  split; [reflexivity|].
  exact (proj2 (no_open_after_error (errorReply "Search failed: signal timed out")
                  (handleMessage late_reply (init (Some new_target) new_ArchiveNotificationUI))
                  eq_refl)).
Defined.

Lemma reply_always_rendered_witness :
  In (1, late_reply) (worker_found old_target (Some 1)) /\
  container (init (Some old_target) new_ArchiveNotificationUI) <> None /\
  settled (handleMessage late_reply (init (Some old_target) new_ArchiveNotificationUI)).
Proof.
  assert (H : In (1, late_reply) (worker_found old_target (Some 1)))
    by (left; reflexivity).
  assert (C : container (init (Some old_target) new_ArchiveNotificationUI) <> None)
    by discriminate.
  split; [exact H|]. split; [exact C|].
  exact (proj1 (reply_always_rendered plainHostParser fetch_found old_target (Some 1)
                  1 late_reply _ H C)).
Defined.

Lemma open_button_opens_found_link_witness :
  In (1, late_reply) (worker_found old_target (Some 1)) /\
  type late_reply = ARCHIVE_FOUND /\
  exists a m,
    is_archive_link a /\
    Messages.archiveUrl (payload late_reply) = Some a /\
    fst (handleClick "j-archive-open-btn"
           (handleMessage late_reply (init (Some old_target) new_ArchiveNotificationUI))) = [m] /\
    forall fetch' senderTab,
      BackgroundService.onMessage plainHostParser fetch' m senderTab
      = [BackgroundService.CreateTab (Some a)].
Proof.
  assert (H : In (1, late_reply) (worker_found old_target (Some 1)))
    by (left; reflexivity).
  split; [exact H|]. split; [reflexivity|].
  exact (open_button_opens_found_link plainHostParser fetch_found old_target (Some 1)
           1 late_reply (init (Some old_target) new_ArchiveNotificationUI) H eq_refl).
Defined.

Lemma click_to_card_witness :
  isValidUrl plainHostParser "https://a.com/p?q=1" = Returns true /\
  exists v,
    ui (deliver (messagesTo 1
                   (BackgroundService.onClicked plainHostParser fetch_no_result
                      injection_ok injection_ok
                      (BackgroundService.mkTab (Some 1) (Some "https://a.com/p?q=1"))))
                retriggered_tab) = Some v /\
    currentUrl v = Some "https://a.com/p?q=1" /\ settled v.
Proof.
  split; [reflexivity|].
  exact (click_to_card plainHostParser fetch_no_result injection_ok injection_ok
           0 "https://a.com/p?q=1" retriggered_tab eq_refl eq_refl eq_refl).
Defined.

End ContentExtras.

(** ** The in-page UI component *)

Module ArchiveUIExtras.
Import Url JArchiveBackground Extractor LookupSpec WorkerFacts Replies Scenarios.
Import ArchiveUIComponent ArchiveUIScenario.

Lemma archiveUI_state_renderUI (u : ArchiveUI) : state (renderUI u) = state u.
Proof. unfold renderUI. now destruct (container u). Qed.

Lemma handle_found (c : ascii) (a : string) (u : ArchiveUI) :
  container u <> None ->
  container (handleMessage (foundReply (String c a)) u) = Some getArchiveFoundHTML.
Proof.
  intros C. unfold handleMessage, updateState, renderUI. cbn.
  destruct (container u); [reflexivity | congruence].
Qed.

Lemma handle_error (c : ascii) (e : string) (u : ArchiveUI) :
  container u <> None ->
  container (handleMessage (errorReply (String c e)) u)
  = Some (mkCard "j-archive-error" "Archive Not Found" (String c e) false true).
Proof.
  intros C. unfold handleMessage, updateState, renderUI. cbn.
  destruct (container u); [reflexivity | congruence].
Qed.

(** X18: in this component a message overwrites only part of the state,
    so a URL found earlier outlives an error, and an earlier error text
    outlives a find.  The card is not affected: a find with a URL shows
    "Archive Found!", an error with a text shows that text. *)
Theorem stale_fields_do_not_show (m : ExtensionMessage) (u : ArchiveUI) :
  container u <> None ->
  (type m = ARCHIVE_ERROR ->
   JArchiveContent.archiveUrl (state (handleMessage m u))
     = JArchiveContent.archiveUrl (state u) /\
   openArchive (handleMessage m u) = openArchive u /\
   forall c e, Messages.error (payload m) = Some (String c e) ->
     container (handleMessage m u)
     = Some (mkCard "j-archive-error" "Archive Not Found" (String c e) false true)) /\
  (type m = ARCHIVE_FOUND ->
   JArchiveContent.error (state (handleMessage m u))
     = JArchiveContent.error (state u) /\
   forall c a, Messages.archiveUrl (payload m) = Some (String c a) ->
     container (handleMessage m u) = Some getArchiveFoundHTML).
Proof.
  intros C. unfold handleMessage, openArchive, updateState. split; intros ->;
    rewrite archiveUI_state_renderUI; cbn [state JArchiveContent.archiveUrl JArchiveContent.error].
  - split; [reflexivity|]. split; [reflexivity|]. intros c e E.
    unfold renderUI. cbn [container state]. destruct (container u); [|congruence].
    cbn. rewrite E. reflexivity.
  - split; [reflexivity|]. intros c a E.
    unfold renderUI. cbn [container state]. destruct (container u); [|congruence].
    cbn. rewrite E. reflexivity.
Qed.

Section Worker.

Variable hostParser : bool -> string -> option string.
Variable fetch : Fetch.

(** X19: "Try Again".  The click puts the component in the loading state
    and sends one message, FIND_ARCHIVE with the address of the page.  The
    worker answers it as it answers a lookup of that address: with one
    message, to the tab the request came from.  Once the component has
    handled that reply it shows "Archive Found!" or the error card with
    the text of the reply, whatever its state held before. *)
Theorem retry_round_trip (href : string) (u : ArchiveUI) (n : nat) :
  container u <> None ->
  snd (handleClick "j-archive-retry-btn" href u)
    = [mkMessage FIND_ARCHIVE (mkPayload (Some href) None None)] /\
  container (fst (handleClick "j-archive-retry-btn" href u)) = Some getLoadingHTML /\
  exists reply,
    handleFindArchive hostParser fetch href (Some (S n)) = [(S n, reply)] /\
    BackgroundService.onMessage hostParser fetch
      (mkMessage FIND_ARCHIVE (mkPayload (Some href) None None)) (Some (S n))
      = [BackgroundService.SendToTab (S n) reply] /\
    ((type reply = ARCHIVE_FOUND /\
      container (handleMessage reply (fst (handleClick "j-archive-retry-btn" href u)))
        = Some getArchiveFoundHTML) \/
     (type reply = ARCHIVE_ERROR /\
      exists e, e <> "" /\ Messages.error (payload reply) = Some e /\
        container (handleMessage reply (fst (handleClick "j-archive-retry-btn" href u)))
          = Some (mkCard "j-archive-error" "Archive Not Found" e false true))).
Proof.
  intros C.
  assert (L : container (fst (handleClick "j-archive-retry-btn" href u))
              = Some getLoadingHTML).
  { unfold handleClick, findArchive, updateState, renderUI. cbn.
    destruct (container u); [reflexivity | congruence]. }
  split; [reflexivity|]. split; [exact L|].
  assert (C1 : container (fst (handleClick "j-archive-retry-btn" href u)) <> None)
    by (rewrite L; discriminate).
  remember (fst (handleClick "j-archive-retry-btn" href u)) as u1 eqn:E1.
  clear E1.
  unfold BackgroundService.onMessage.
  cbn [type payload Messages.url BackgroundService.toString].
  destruct (cleanUrl_total hostParser href) as [c Cl].
  destruct (WorkerExtras.handleFindArchive_cases hostParser fetch href c n Cl)
    as [(_ & html & a & _ & _ & _ & P & R) | [_ [R | [reason R]]]];
    rewrite R; eexists; (split; [reflexivity|]); (split; [reflexivity|]).
  - left. split; [reflexivity|].
    pose proof (WorkerExtras.link_nonempty a (WorkerExtras.parse_some_link _ _ _ P)) as A.
    destruct a as [|x a]; [discriminate|]. now apply handle_found.
  - right. split; [reflexivity|]. eexists. split; [|split; [reflexivity|]].
    + discriminate.
    + now apply handle_error.
  - right. split; [reflexivity|]. eexists. split; [|split; [reflexivity|]].
    + discriminate.
    + now apply handle_error.
Qed.

End Worker.

Lemma stale_fields_do_not_show_witness :
  container shown_found <> None /\
  type (errorReply "Search failed: signal timed out") = ARCHIVE_ERROR /\
  openArchive (handleMessage (errorReply "Search failed: signal timed out") shown_found)
  = [mkMessage OPEN_ARCHIVE (mkPayload (Some "https://archive.ph/abc12") None None)] /\
  container (handleMessage (errorReply "Search failed: signal timed out") shown_found)
  = Some (mkCard "j-archive-error" "Archive Not Found"
                 "Search failed: signal timed out" false true).
Proof.
  assert (C : container shown_found <> None) by discriminate.
  split; [exact C|]. split; [reflexivity|].
  destruct (proj1 (stale_fields_do_not_show
                     (errorReply "Search failed: signal timed out") shown_found C)
                  eq_refl) as (_ & O & K).
  split; [rewrite O; reflexivity|].
  exact (K _ _ eq_refl).
Defined.

Lemma retry_round_trip_witness :
  container shown_found <> None /\
  snd (handleClick "j-archive-retry-btn" "https://a.com/p?q=1" shown_found)
    = [mkMessage FIND_ARCHIVE (mkPayload (Some "https://a.com/p?q=1") None None)] /\
  container (fst (handleClick "j-archive-retry-btn" "https://a.com/p?q=1" shown_found))
    = Some getLoadingHTML /\
  exists reply,
    handleFindArchive plainHostParser fetch_timeout "https://a.com/p?q=1" (Some 1)
      = [(1, reply)] /\
    BackgroundService.onMessage plainHostParser fetch_timeout
      (mkMessage FIND_ARCHIVE (mkPayload (Some "https://a.com/p?q=1") None None)) (Some 1)
      = [BackgroundService.SendToTab 1 reply].
Proof.
  assert (C : container shown_found <> None) by discriminate.
  split; [exact C|].
  destruct (retry_round_trip plainHostParser fetch_timeout "https://a.com/p?q=1"
              shown_found 0 C) as (A & B & reply & D & E & _).
  split; [exact A|]. split; [exact B|]. exists reply. auto.
Defined.

End ArchiveUIExtras.
